(** * build_search_index.py: the search-index builder, embedded and verified

    The script walks a handful of parsed HTML pages with fixed CSS
    selectors, turns cards, sections and glossary terms into flat records
    and writes them as one JSON array.  This file embeds the script
    function by function and proves the properties of its specification.

    Python strings are sequences of Unicode code points; they are modelled
    as lists of code points ([N]), so that [len], slicing and the
    one-character ellipsis count what Python counts. *)

From Stdlib Require Import List NArith ZArith Arith Bool Lia String Ascii.
From Stdlib Require Import DecimalNat Permutation.
From Stdlib.Strings Require Import Byte.
Import ListNotations.

Set Implicit Arguments.
Local Open Scope string_scope.
Local Open Scope list_scope.
Local Open Scope N_scope.

#[local] Arguments N.eqb !n !m : simpl nomatch.
#[local] Arguments N.ltb !x !y : simpl nomatch.
#[local] Arguments N.leb !x !y : simpl nomatch.

(* ================================================================== *)
(** ** Python strings                                                  *)
(* ================================================================== *)

Definition char := N.
Definition str := list char.

(** An ASCII literal of the source, as code points. *)
Fixpoint lit (s : string) : str :=
  match s with
  | EmptyString => []
  | String a s' => N_of_ascii a :: lit s'
  end.

Definition SPACE : char := 32.
Definition HASH : char := 35.
Definition HYPHEN : char := 45.
(** U+2026 HORIZONTAL ELLIPSIS, the one character of the literal in
    [truncate]. *)
Definition ELLIPSIS : char := 8230.
(** U+2014 EM DASH, used by the table-of-contents separator. *)
Definition EM_DASH : char := 8212.

(** [a == b] on strings. *)
Fixpoint str_eqb (a b : str) : bool :=
  match a, b with
  | [], [] => true
  | x :: a', y :: b' => (x =? y) && str_eqb a' b'
  | _, _ => false
  end.

(** [bool(s)] for a string: non-empty. *)
Definition truthy (s : str) : bool :=
  match s with [] => false | _ => true end.

(** [a or b] on strings. *)
Definition str_or (a b : str) : str := if truthy a then a else b.

(** [s.startswith(p)]. *)
Fixpoint startswith (p s : str) : bool :=
  match p, s with
  | [], _ => true
  | _ :: _, [] => false
  | a :: p', b :: s' => (a =? b) && startswith p' s'
  end.

(** [sep.join(parts)]. *)
Fixpoint join (sep : str) (parts : list str) : str :=
  match parts with
  | [] => []
  | [p] => p
  | p :: rest => p ++ sep ++ join sep rest
  end.

(** Unicode whitespace as CPython decides it ([Py_UNICODE_ISSPACE]): the
    one predicate behind [str.isspace], [str.strip()] and the [\s] class
    of [re] on [str] patterns. *)
Definition isspace (c : char) : bool :=
  ((9 <=? c) && (c <=? 13)) || ((28 <=? c) && (c <=? 32))
  || (c =? 133) || (c =? 160) || (c =? 5760)
  || ((8192 <=? c) && (c <=? 8202))
  || (c =? 8232) || (c =? 8233) || (c =? 8239) || (c =? 8287)
  || (c =? 12288).

(** [re.sub(r"\s+", " ", s)]: every maximal run of whitespace becomes one
    space.  [in_run] tells that the previous character was whitespace, so
    the run's replacement is already written. *)
Fixpoint sub_ws_run (in_run : bool) (s : str) : str :=
  match s with
  | [] => []
  | c :: s' =>
      if isspace c
      then (if in_run then sub_ws_run true s' else SPACE :: sub_ws_run true s')
      else c :: sub_ws_run false s'
  end.

Definition sub_ws (s : str) : str := sub_ws_run false s.

(** [s.lstrip()], [s.rstrip()], [s.strip()] with no argument. *)
Fixpoint lstrip (s : str) : str :=
  match s with
  | [] => []
  | c :: s' => if isspace c then lstrip s' else s
  end.

Definition rstrip (s : str) : str := rev (lstrip (rev s)).

Definition strip (s : str) : str := rstrip (lstrip s).

(** [s.replace(old, new)] in general: leftmost non-overlapping occurrences.
    [skip] counts the characters of a match still to be consumed.  An empty
    [old] matches before every character and at the end. *)
Fixpoint replace_from (old new : str) (skip : nat) (s : str) : str :=
  match s with
  | [] => []
  | c :: s' =>
      match skip with
      | S k => replace_from old new k s'
      | O =>
          if startswith old s
          then new ++ replace_from old new (pred (List.length old)) s'
          else c :: replace_from old new O s'
      end
  end.

Definition replace (old new s : str) : str :=
  match old with
  | [] => new ++ flat_map (fun c => c :: new) s
  | _ :: _ => replace_from old new O s
  end.

(** [s.rsplit(" ", 1)]: the text before the last space, when there is a
    space at all. *)
Fixpoint before_last_space (s : str) : option str :=
  match s with
  | [] => None
  | c :: s' =>
      match before_last_space s' with
      | Some p => Some (c :: p)
      | None => if c =? SPACE then Some [] else None
      end
  end.

(** [s.rsplit(" ", 1)[0]]. *)
Definition rsplit1_head (s : str) : str :=
  match before_last_space s with
  | Some p => p
  | None => s
  end.

(** [str(n)] and [f"{n}"] for a non-negative integer. *)
Fixpoint digits (d : Decimal.uint) : str :=
  match d with
  | Decimal.Nil => []
  | Decimal.D0 d' => 48 :: digits d'
  | Decimal.D1 d' => 49 :: digits d'
  | Decimal.D2 d' => 50 :: digits d'
  | Decimal.D3 d' => 51 :: digits d'
  | Decimal.D4 d' => 52 :: digits d'
  | Decimal.D5 d' => 53 :: digits d'
  | Decimal.D6 d' => 54 :: digits d'
  | Decimal.D7 d' => 55 :: digits d'
  | Decimal.D8 d' => 56 :: digits d'
  | Decimal.D9 d' => 57 :: digits d'
  end.

Definition str_of_nat (n : nat) : str := digits (Nat.to_uint n).

(* ================================================================== *)
(** ** The parsed document                                             *)
(* ================================================================== *)

(** What [html.parser] hands to the script: text nodes and elements.  An
    element carries its tag name, its [class] attribute as the list of
    class tokens (BeautifulSoup splits it while parsing) and its other
    attributes as a dictionary from name to string.  The [BeautifulSoup]
    object itself is an element named [[document]] without attributes.
    The script reads the strings of a page through [get_text] alone, so
    the tree keeps the strings [get_text] collects: comments and the
    strings inside [script], [style] and [template] elements, which it
    leaves out, are not part of the tree. *)
#[warning="-register-all"]
Inductive node : Type :=
| NavigableString (s : str)
| Tag (name : str) (classes : list str) (attrs : list (str * str))
      (contents : list node).

(** [attrs.get(key)] on the attribute dictionary. *)
Fixpoint attrs_get (attrs : list (str * str)) (key : str) : option str :=
  match attrs with
  | [] => None
  | (k, v) :: rest => if str_eqb k key then Some v else attrs_get rest key
  end.

(** [el.get(key)]: [None] when the attribute is missing. *)
Definition get (el : node) (key : str) : option str :=
  match el with
  | NavigableString _ => None
  | Tag _ _ attrs _ => attrs_get attrs key
  end.

(** [el.get(key, default)]. *)
Definition get_default (el : node) (key : str) (default : str) : str :=
  match get el key with
  | Some v => v
  | None => default
  end.

(** The strings of the tree below a node in document order: those
    [get_text] joins. *)
Fixpoint strings (n : node) : list str :=
  match n with
  | NavigableString s => [s]
  | Tag _ _ _ cs => flat_map strings cs
  end.

(** [el.get_text(separator=sep)]. *)
Definition get_text (sep : str) (el : node) : str := join sep (strings el).

(** The selectors the script uses: [.cls], [tag], [tag[attr]] and the
    descendant combination [.cls tag]. *)
Inductive compound : Type :=
| ByClass (c : str)
| ByType (name : str)
| ByTypeAttr (name attr : str).

Inductive selector : Type :=
| Simple (c : compound)
| Descendant (ancestor c : compound).

Definition matches_compound (c : compound) (n : node) : bool :=
  match n with
  | NavigableString _ => false
  | Tag name classes attrs _ =>
      match c with
      | ByClass cls => existsb (str_eqb cls) classes
      | ByType t => str_eqb t name
      | ByTypeAttr t a =>
          str_eqb t name
          && match attrs_get attrs a with Some _ => true | None => false end
      end
  end.

(** Whether [n], whose ancestors are [ancestors], matches the selector. *)
Definition matches (sel : selector) (ancestors : list node) (n : node) : bool :=
  match sel with
  | Simple c => matches_compound c n
  | Descendant a c => matches_compound c n && existsb (matches_compound a) ancestors
  end.

(** The proper descendants of [n] in document order, each with the chain
    of its ancestors up to and including [n]. *)
Fixpoint walk (ancestors : list node) (n : node) : list (list node * node) :=
  match n with
  | NavigableString _ => []
  | Tag _ _ _ cs =>
      flat_map (fun c => (n :: ancestors, c) :: walk (n :: ancestors) c) cs
  end.

(** [el.select(sel)] and [el.select_one(sel)]. *)
Definition select (sel : selector) (el : node) : list node :=
  map snd (filter (fun p => matches sel (fst p) (snd p)) (walk [] el)).

Definition select_one (sel : selector) (el : node) : option node :=
  hd_error (select sel el).

(* ================================================================== *)
(** ** Text helpers of the script                                      *)
(* ================================================================== *)

(** [text(el)]: clean text of an element, the empty string for [None]. *)
Definition text (el : option node) : str :=
  match el with
  | None => []
  | Some el => strip (sub_ws (get_text [SPACE] el))
  end.

(** [truncate(s, max_len)] for a bound that is not negative, where the
    slice [s[:max_len]] is the first [max_len] characters. *)
Definition truncate_to (max_len : nat) (s : str) : str :=
  if (List.length s <=? max_len)%nat
  then s
  else rsplit1_head (firstn max_len s) ++ [ELLIPSIS].

(** [truncate(s)] with the default [max_len = 300]. *)
Definition truncate (s : str) : str := truncate_to 300 s.

(** [s[:stop]] for any integer [stop]: a negative one counts from the end
    of the string, and stops at its start. *)
Definition slice_to (stop : Z) (s : str) : str :=
  if (0 <=? stop)%Z then firstn (Z.to_nat stop) s
  else firstn (List.length s - Z.to_nat (- stop)) s.

(** [truncate(s, max_len)] for any integer bound. *)
Definition truncate_int (s : str) (max_len : Z) : str :=
  if (Z.of_nat (List.length s) <=? max_len)%Z then s
  else rsplit1_head (slice_to max_len s) ++ [ELLIPSIS].

(** The selector strings of the script. *)
Definition by_class (c : string) : selector := Simple (ByClass (lit c)).
Definition by_type (t : string) : selector := Simple (ByType (lit t)).
Definition by_type_attr (t a : string) : selector :=
  Simple (ByTypeAttr (lit t) (lit a)).

(* ================================================================== *)
(** ** Exceptions                                                      *)
(* ================================================================== *)

(** [el[key]] raises [KeyError] when the attribute is missing; it is the
    one operation of the extractors that can fail.  [Path.stat] raises
    [FileNotFoundError] on a path that does not exist.  Encoding a lone
    surrogate as UTF-8 raises [UnicodeEncodeError]; reading a file that is
    not UTF-8 raises [UnicodeDecodeError], and opening a path that is a
    directory or may not be read or written raises an [OSError]. *)
Inductive exn : Type :=
| KeyError (key : str)
| FileNotFoundError (path : str)
| UnicodeEncodeError (c : char)
| UnicodeDecodeError (path : str)
| OSError (path : str).

Inductive result (A : Type) : Type :=
| Ok (a : A)
| Raise (e : exn).

Arguments Ok {A} a.
Arguments Raise {A} e.

Definition bind {A B : Type} (r : result A) (k : A -> result B) : result B :=
  match r with
  | Ok a => k a
  | Raise e => Raise e
  end.

Notation "x <- r ;; k" := (bind r (fun x => k))
  (at level 61, r at next level, right associativity).

(** [el[key]]. *)
Definition getitem (el : node) (key : str) : result str :=
  match get el key with
  | Some v => Ok v
  | None => Raise (KeyError key)
  end.

(** A [for] loop whose body may raise, collecting what each round
    appends. *)
Fixpoint for_each {A B : Type} (body : A -> result (list B)) (l : list A)
  : result (list B) :=
  match l with
  | [] => Ok []
  | x :: l' =>
      appended <- body x ;;
      rest <- for_each body l' ;;
      Ok (appended ++ rest)
  end.

(** What a round of such a loop appends when it does not raise. *)
Definition appended {A B : Type} (body : A -> result (list B)) (x : A) : list B :=
  match body x with
  | Ok ys => ys
  | Raise _ => []
  end.

(** [enumerate(l)], counting from [i]. *)
Fixpoint enumerate_from {A : Type} (i : nat) (l : list A) : list (nat * A) :=
  match l with
  | [] => []
  | x :: l' => (i, x) :: enumerate_from (S i) l'
  end.

Definition enumerate {A : Type} (l : list A) : list (nat * A) :=
  enumerate_from 0 l.

(* ================================================================== *)
(** ** Search records and the extractors                               *)
(* ================================================================== *)

(** One record of the index: the dictionary literal every extractor
    appends, with its seven fixed keys. *)
Record entry : Type := {
  e_id : str;
  e_title : str;
  e_content : str;
  e_excerpt : str;
  e_url : str;
  e_type : str;
  e_type_label : str
}.

(** The dictionary's items in insertion order. *)
Definition items (e : entry) : list (str * str) :=
  [ (lit "id", e_id e);
    (lit "title", e_title e);
    (lit "content", e_content e);
    (lit "excerpt", e_excerpt e);
    (lit "url", e_url e);
    (lit "type", e_type e);
    (lit "type_label", e_type_label e) ].

(** Body of the loop of [parse_qa]. *)
Definition qa_card (card : node) : entry :=
  let card_id := get_default card (lit "id") [] in
  let question := text (select_one (by_class "qa-question-text") card) in
  let question :=
    if startswith [HASH] question then strip (skipn 1 question) else question in
  let content := text (select_one (by_class "qa-content") card) in
  {| e_id := lit "qa-" ++ card_id;
     e_title := question;
     e_content := content;
     e_excerpt := truncate content;
     e_url := lit "qa#" ++ card_id;
     e_type := lit "qa";
     e_type_label := lit "Q&A" |}.

Definition parse_qa (soup : node) : list entry :=
  map qa_card (select (by_class "qa-card") soup).

(** Body of the loop of [parse_arg_cards]. *)
Definition arg_card (page_url type_id type_label : str) (card : node) : entry :=
  let card_id := get_default card (lit "id") [] in
  let num := text (select_one (by_class "arg-num") card) in
  let claim := text (select_one (by_class "arg-claim") card) in
  let label := text (select_one (by_class "arg-label") card) in
  let title := strip (num ++ [SPACE] ++ claim) in
  let title :=
    if truthy label then title ++ lit " (" ++ label ++ lit ")" else title in
  let body := str_or (text (select_one (by_class "arg-vastaus") card))
                     (text (select_one (by_class "arg-body") card)) in
  {| e_id := type_id ++ [HYPHEN] ++ card_id;
     e_title := title;
     e_content := body;
     e_excerpt := truncate body;
     e_url := page_url ++ [HASH] ++ card_id;
     e_type := type_id;
     e_type_label := type_label |}.

Definition parse_arg_cards (soup : node) (page_url type_id type_label : str)
  : list entry :=
  map (arg_card page_url type_id type_label) (select (by_class "arg-card") soup).

(** [h2 or h3] on two optional elements: an element is always true. *)
Definition node_or (a b : option node) : option node :=
  match a with
  | Some _ => a
  | None => b
  end.

(** The anchor of a section of [parse_essay]. *)
Definition section_anchor (heading_el : option node) : result str :=
  match heading_el with
  | None => Ok []
  | Some heading_el =>
      match select_one (by_type_attr "a" "id") heading_el with
      | Some a =>
          a_id <- getitem a (lit "id") ;;
          Ok (HASH :: a_id)
      | None =>
          match get heading_el (lit "id") with
          | Some (_ :: _) =>
              h_id <- getitem heading_el (lit "id") ;;
              Ok (HASH :: h_id)
          | _ => Ok []
          end
      end
  end.

(** Body of the section loop of [parse_essay]. *)
Definition essay_section (page_url type_id type_label : str)
  (numbered : nat * node) : result (list entry) :=
  let (i, section) := numbered in
  let h2 := select_one (by_type "h2") section in
  let h3 := select_one (by_type "h3") section in
  let heading :=
    str_or (text h2) (str_or (text h3) (lit "Osio " ++ str_of_nat (i + 1))) in
  anchor <- section_anchor (node_or h2 h3) ;;
  let content := text (Some section) in
  Ok [ {| e_id := type_id ++ lit "-s" ++ str_of_nat i;
          e_title := heading;
          e_content := content;
          e_excerpt := truncate content;
          e_url := page_url ++ anchor;
          e_type := type_id;
          e_type_label := type_label |} ].

Definition parse_essay (soup : node) (page_url type_id type_label : str)
  : result (list entry) :=
  match select_one (by_class "essay-body") soup with
  | None => Ok []
  | Some essay_body =>
      match select (by_type "section") essay_body with
      | [] =>
          let content := text (Some essay_body) in
          let h1 :=
            select_one (Descendant (ByClass (lit "essay-header")) (ByType (lit "h1")))
                       soup in
          Ok [ {| e_id := type_id ++ lit "-full";
                  e_title := match h1 with
                             | Some _ => text h1
                             | None => type_label
                             end;
                  e_content := content;
                  e_excerpt := truncate content;
                  e_url := page_url;
                  e_type := type_id;
                  e_type_label := type_label |} ]
      | sections =>
          for_each (essay_section page_url type_id type_label) (enumerate sections)
      end
  end.

(** The label "Sisällys" and the separator " — " of [parse_sisallys]. *)
Definition SISALLYS_LABEL : str := lit "Sis" ++ [228] ++ lit "llys".
Definition TOC_SEPARATOR : str := [SPACE; EM_DASH; SPACE].

(** Body of the loop of [parse_sisallys]; a chapter without title element
    appends nothing. *)
Definition toc_chapter (chapter : node) : result (list entry) :=
  match select_one (by_class "toc-chapter-title") chapter with
  | None => Ok []
  | Some title_el =>
      let title := text (Some title_el) in
      let badge := select_one (by_class "toc-badge") title_el in
      let badge_text := match badge with Some _ => text badge | None => [] end in
      let link := select_one (by_type_attr "a" "href") title_el in
      url <- match link with
             | Some link => getitem link (lit "href")
             | None => Ok (lit "sisallys")
             end ;;
      let sections_el := select_one (by_class "toc-sections") chapter in
      let section_items :=
        match sections_el with
        | Some sections_el =>
            map (fun li => text (Some li)) (select (by_type "li") sections_el)
        | None => []
        end in
      let content :=
        match section_items with
        | [] => title
        | _ :: _ => join TOC_SEPARATOR section_items
        end in
      Ok [ {| e_id := lit "toc-" ++ url;
              e_title := strip (replace badge_text [] title);
              e_content := content;
              e_excerpt := truncate content;
              e_url := if startswith (lit "http") url then url else lit "sisallys";
              e_type := lit "toc";
              e_type_label := SISALLYS_LABEL |} ]
  end.

Definition parse_sisallys (soup : node) : result (list entry) :=
  for_each toc_chapter (select (by_class "toc-chapter") soup).

(** The label "Käsite" of [parse_terms]. *)
Definition KASITE_LABEL : str := lit "K" ++ [228] ++ lit "site".

Section Glossary.

(** [str.lower], the Unicode lower-casing of the Python library. *)
Variable lower : str -> str.

(** Body of the loop of [parse_terms]; a term without [h3] appends
    nothing. *)
Definition term_entry (term : node) : list entry :=
  let h3 := select_one (by_type "h3") term in
  let p := select_one (by_type "p") term in
  match h3 with
  | None => []
  | Some _ =>
      let title := text h3 in
      let content := match p with Some _ => text p | None => [] end in
      [ {| e_id := lit "term-" ++ replace [SPACE] [HYPHEN] (lower title);
           e_title := title;
           e_content := content;
           e_excerpt := truncate content;
           e_url := lit "/sanakirja";
           e_type := lit "termi";
           e_type_label := KASITE_LABEL |} ]
  end.

Definition parse_terms (soup : node) : list entry :=
  flat_map term_entry (select (by_class "term") soup).

End Glossary.

(* ================================================================== *)
(** ** The serializer: [json.dumps] and UTF-8                          *)
(* ================================================================== *)

Definition QUOTE : char := 34.
Definition BACKSLASH : char := 92.
Definition NEWLINE : char := 10.

(** One lower-case hexadecimal digit. *)
Definition hex_digit (n : N) : char := if n <? 10 then 48 + n else 87 + n.

(** [ESCAPE_DCT] of the [json] encoder as used with
    [ensure_ascii=False]: the quote, the backslash and the control
    characters below U+0020 are escaped, every other character stands for
    itself. *)
Definition escape_char (c : char) : str :=
  if c =? QUOTE then [BACKSLASH; QUOTE]
  else if c =? BACKSLASH then [BACKSLASH; BACKSLASH]
  else if c =? 8 then BACKSLASH :: lit "b"
  else if c =? 12 then BACKSLASH :: lit "f"
  else if c =? 10 then BACKSLASH :: lit "n"
  else if c =? 13 then BACKSLASH :: lit "r"
  else if c =? 9 then BACKSLASH :: lit "t"
  else if c <? 32
       then BACKSLASH :: lit "u00" ++ [hex_digit (c / 16); hex_digit (c mod 16)]
  else [c].

(** [encode_basestring(s)]. *)
Definition encode_basestring (s : str) : str :=
  QUOTE :: flat_map escape_char s ++ [QUOTE].

(** Comparison of strings by code points, the order of [sorted]. *)
Fixpoint str_leb (a b : str) : bool :=
  match a, b with
  | [], _ => true
  | _ :: _, [] => false
  | x :: a', y :: b' => (x <? y) || ((x =? y) && str_leb a' b')
  end.

(** [sorted(dct.items())]: the items in the order of their keys. *)
Fixpoint insert_item (kv : str * str) (l : list (str * str)) : list (str * str) :=
  match l with
  | [] => [kv]
  | kv' :: l' =>
      if str_leb (fst kv) (fst kv') then kv :: l else kv' :: insert_item kv l'
  end.

Fixpoint sorted_items (l : list (str * str)) : list (str * str) :=
  match l with
  | [] => []
  | kv :: l' => insert_item kv (sorted_items l')
  end.

(** The [indent=1] argument of [json.dumps]: one space per level. *)
Definition INDENT : nat := 1.

(** A newline followed by the indentation of a nesting level. *)
Definition newline_indent (level : nat) : str :=
  NEWLINE :: repeat SPACE (INDENT * level).

(** With an indent, the item separator is a comma followed by the
    newline and indentation; the key separator is a colon and a space. *)
Definition item_separator (level : nat) : str :=
  lit "," ++ newline_indent level.

Definition key_separator : str := lit ": ".

(** A dictionary of strings at nesting level [level], keys sorted. *)
Definition encode_dict (level : nat) (dct : list (str * str)) : str :=
  match dct with
  | [] => lit "{}"
  | _ :: _ =>
      lit "{" ++ newline_indent (S level)
      ++ join (item_separator (S level))
              (map (fun kv => encode_basestring (fst kv) ++ key_separator
                              ++ encode_basestring (snd kv))
                   (sorted_items dct))
      ++ newline_indent level ++ lit "}"
  end.

(** A list of dictionaries at nesting level [level]. *)
Definition encode_list (level : nat) (l : list (list (str * str))) : str :=
  match l with
  | [] => lit "[]"
  | _ :: _ =>
      lit "[" ++ newline_indent (S level)
      ++ join (item_separator (S level)) (map (encode_dict (S level)) l)
      ++ newline_indent level ++ lit "]"
  end.

(** [json.dumps(all_entries, ensure_ascii=False, indent=1,
    sort_keys=True)]. *)
Definition dumps (all_entries : list entry) : str :=
  encode_list 0 (map items all_entries).

Definition byte_of_N (n : N) : byte :=
  match Byte.of_N n with
  | Some b => b
  | None => x00
  end.

(** UTF-8 of one code point that is not a surrogate.  On a surrogate,
    U+D800 to U+DFFF, Python's encoder raises: [utf8_encode_strict] below
    has that check, and the bytes given here for one are never written. *)
Definition utf8_char (c : char) : list byte :=
  if c <? 128 then [byte_of_N c]
  else if c <? 2048 then
    [byte_of_N (N.lor 192 (N.shiftr c 6));
     byte_of_N (N.lor 128 (N.land c 63))]
  else if c <? 65536 then
    [byte_of_N (N.lor 224 (N.shiftr c 12));
     byte_of_N (N.lor 128 (N.land (N.shiftr c 6) 63));
     byte_of_N (N.lor 128 (N.land c 63))]
  else
    [byte_of_N (N.lor 240 (N.shiftr c 18));
     byte_of_N (N.lor 128 (N.land (N.shiftr c 12) 63));
     byte_of_N (N.lor 128 (N.land (N.shiftr c 6) 63));
     byte_of_N (N.lor 128 (N.land c 63))].

(** [s.encode("utf-8")] of a text without surrogate. *)
Definition utf8_encode (s : str) : list byte := flat_map utf8_char s.

(* ================================================================== *)
(** ** The driver                                                      *)
(* ================================================================== *)

(** What a run can see and change when nothing fails around it: the HTML
    files of [SITE_DIR] by file name, each as the document [html.parser]
    builds from its text (no entry for a file that does not exist); the
    output file [OUTPUT], with the text of its path; and the lines printed
    so far.  Every file that exists is taken to be readable as UTF-8, the
    output file to be writable and the text written to hold no surrogate;
    the module [IO] below has the run with these errors, and agrees with
    this one where none of them occurs. *)
Record world : Type := {
  pages : str -> option node;
  output_path : str;
  output_file : option (list byte);
  stdout : list str
}.

(** Statements of the driver: they may raise, and change the world. *)
Definition io (A : Type) : Type := world -> result A * world.

Definition io_ret {A : Type} (a : A) : io A := fun w => (Ok a, w).

Definition io_bind {A B : Type} (c : io A) (k : A -> io B) : io B :=
  fun w =>
    match c w with
    | (Ok a, w') => k a w'
    | (Raise e, w') => (Raise e, w')
    end.

Notation "x <~ c ;; k" := (io_bind c (fun x => k))
  (at level 61, c at next level, right associativity).
Notation "c ;;; k" := (io_bind c (fun _ => k))
  (at level 61, right associativity).

(** A pure computation that may raise, run as a statement. *)
Definition lift {A : Type} (r : result A) : io A := fun w => (r, w).

(** [print(line)]. *)
Definition print (line : str) : io unit :=
  fun w =>
    (Ok tt, {| pages := pages w;
               output_path := output_path w;
               output_file := output_file w;
               stdout := stdout w ++ [line] |}).

(** The skip notice of [load_soup]. *)
Definition skip_notice (filename : str) : str :=
  lit "  Skipping " ++ filename ++ lit " (not found)".

(** [load_soup(filename)] where every file that exists can be read. *)
Definition load_soup (filename : str) : io (option node) :=
  fun w =>
    match pages w filename with
    | None => (print (skip_notice filename) ;;; io_ret None) w
    | Some soup => io_ret (Some soup) w
    end.

(** [OUTPUT.write_text(data, encoding="utf-8")] where the file can be
    opened and [data] encoded: the file is created or replaced. *)
Definition write_text (data : str) : io unit :=
  fun w =>
    (Ok tt, {| pages := pages w;
               output_path := output_path w;
               output_file := Some (utf8_encode data);
               stdout := stdout w |}).

(** [OUTPUT.stat().st_size]. *)
Definition st_size : io nat :=
  fun w =>
    match output_file w with
    | Some bytes => (Ok (List.length bytes), w)
    | None => (Raise (FileNotFoundError (output_path w)), w)
    end.

(** [f"{st_size / 1024:.0f}"]: the size in KB rounded to the nearest
    integer, a tie going to the even one. *)
Definition format_kb (size : nat) : str :=
  let q := (size / 1024)%nat in
  let r := (size mod 1024)%nat in
  str_of_nat
    (if (r <? 512)%nat then q
     else if (512 <? r)%nat then S q
     else if Nat.even q then q else S q).

Section Driver.

Variable lower : str -> str.

Definition main : io unit :=
  let all_entries : list entry := [] in
  (* Q&A *)
  print (lit "Indexing qa.html...") ;;;
  soup <~ load_soup (lit "qa.html") ;;
  all_entries <~
    match soup with
    | Some soup =>
        let entries := parse_qa soup in
        print (lit "  " ++ str_of_nat (List.length entries) ++ lit " Q&A cards") ;;;
        io_ret (all_entries ++ entries)
    | None => io_ret all_entries
    end ;;
  (* Argumentit *)
  print (lit "Indexing argumentit.html...") ;;;
  soup <~ load_soup (lit "argumentit.html") ;;
  all_entries <~
    match soup with
    | Some soup =>
        let entries :=
          parse_arg_cards soup (lit "argumentit") (lit "arg") (lit "Systeemivirhe") in
        print (lit "  " ++ str_of_nat (List.length entries) ++ lit " arguments") ;;;
        io_ret (all_entries ++ entries)
    | None => io_ret all_entries
    end ;;
  (* Kielen valta *)
  print (lit "Indexing kielen-valta.html...") ;;;
  soup <~ load_soup (lit "kielen-valta.html") ;;
  all_entries <~
    match soup with
    | Some soup =>
        let entries :=
          parse_arg_cards soup (lit "kielen-valta") (lit "kieli") (lit "Kielen valta") in
        print (lit "  " ++ str_of_nat (List.length entries)
               ++ lit " language patterns") ;;;
        io_ret (all_entries ++ entries)
    | None => io_ret all_entries
    end ;;
  (* Kannustinketju *)
  print (lit "Indexing kannustinketju.html...") ;;;
  soup <~ load_soup (lit "kannustinketju.html") ;;
  all_entries <~
    match soup with
    | Some soup =>
        entries <~ lift (parse_essay soup (lit "kannustinketju") (lit "kannustin")
                                     (lit "Kannustinketju")) ;;
        print (lit "  " ++ str_of_nat (List.length entries) ++ lit " sections") ;;;
        io_ret (all_entries ++ entries)
    | None => io_ret all_entries
    end ;;
  (* sanakirja page terms *)
  print (lit "Indexing sanakirja.html terms...") ;;;
  soup <~ load_soup (lit "sanakirja.html") ;;
  all_entries <~
    match soup with
    | Some soup =>
        let entries := parse_terms lower soup in
        print (lit "  " ++ str_of_nat (List.length entries) ++ lit " terms") ;;;
        io_ret (all_entries ++ entries)
    | None => io_ret all_entries
    end ;;
  (* Write output *)
  write_text (dumps all_entries) ;;;
  size <~ st_size ;;
  path <~ (fun w => (Ok (output_path w), w)) ;;
  print (NEWLINE :: lit "Wrote " ++ str_of_nat (List.length all_entries)
         ++ lit " entries to " ++ path ++ lit " (" ++ format_kb size ++ lit " KB)").

(** The aggregated sequence the driver hands to the serializer, as a
    function of the pages alone: what each stage extracts from its page,
    nothing for a page that is not there, in the order of the stages. *)
Definition stage (soup : option node) (extract : node -> result (list entry))
  : result (list entry) :=
  match soup with
  | Some soup => extract soup
  | None => Ok []
  end.

Definition aggregate (site : str -> option node) : result (list entry) :=
  qa <- stage (site (lit "qa.html")) (fun soup => Ok (parse_qa soup)) ;;
  arg <- stage (site (lit "argumentit.html"))
           (fun soup => Ok (parse_arg_cards soup (lit "argumentit") (lit "arg")
                                            (lit "Systeemivirhe"))) ;;
  kieli <- stage (site (lit "kielen-valta.html"))
             (fun soup => Ok (parse_arg_cards soup (lit "kielen-valta") (lit "kieli")
                                              (lit "Kielen valta"))) ;;
  kannustin <- stage (site (lit "kannustinketju.html"))
                 (fun soup => parse_essay soup (lit "kannustinketju") (lit "kannustin")
                                          (lit "Kannustinketju")) ;;
  termi <- stage (site (lit "sanakirja.html")) (fun soup => Ok (parse_terms lower soup)) ;;
  Ok (qa ++ arg ++ kieli ++ kannustin ++ termi).

(** The records of a computation that did not raise. *)
Definition unwrap (r : result (list entry)) : list entry :=
  match r with
  | Ok entries => entries
  | Raise _ => []
  end.

(** The array a run serializes. *)
Definition index (site : str -> option node) : list entry :=
  unwrap (aggregate site).

(** The line a stage prints after its banner: the skip notice of
    [load_soup] or the count of its records. *)
Definition stage_line (filename : string) (page : option node)
  (entries : list entry) (what : string) : str :=
  match page with
  | None => skip_notice (lit filename)
  | Some _ => lit "  " ++ str_of_nat (List.length entries) ++ lit what
  end.

(** Everything a run prints, as a function of the pages and of the text
    of the output path. *)
Definition report (site : str -> option node) (path : str) : list str :=
  let qa := unwrap (stage (site (lit "qa.html")) (fun soup => Ok (parse_qa soup))) in
  let arg :=
    unwrap (stage (site (lit "argumentit.html"))
              (fun soup => Ok (parse_arg_cards soup (lit "argumentit") (lit "arg")
                                               (lit "Systeemivirhe")))) in
  let kieli :=
    unwrap (stage (site (lit "kielen-valta.html"))
              (fun soup => Ok (parse_arg_cards soup (lit "kielen-valta") (lit "kieli")
                                               (lit "Kielen valta")))) in
  let kannustin :=
    unwrap (stage (site (lit "kannustinketju.html"))
              (fun soup => parse_essay soup (lit "kannustinketju") (lit "kannustin")
                                       (lit "Kannustinketju"))) in
  let termi :=
    unwrap (stage (site (lit "sanakirja.html"))
              (fun soup => Ok (parse_terms lower soup))) in
  [ lit "Indexing qa.html...";
    stage_line "qa.html" (site (lit "qa.html")) qa " Q&A cards";
    lit "Indexing argumentit.html...";
    stage_line "argumentit.html" (site (lit "argumentit.html")) arg " arguments";
    lit "Indexing kielen-valta.html...";
    stage_line "kielen-valta.html" (site (lit "kielen-valta.html")) kieli
               " language patterns";
    lit "Indexing kannustinketju.html...";
    stage_line "kannustinketju.html" (site (lit "kannustinketju.html")) kannustin
               " sections";
    lit "Indexing sanakirja.html terms...";
    stage_line "sanakirja.html" (site (lit "sanakirja.html")) termi " terms";
    NEWLINE :: lit "Wrote " ++ str_of_nat (List.length (index site))
      ++ lit " entries to " ++ path ++ lit " ("
      ++ format_kb (List.length (utf8_encode (dumps (index site)))) ++ lit " KB)" ].

End Driver.

(* ================================================================== *)
(** ** Properties of strings, as decidable checks                      *)
(* ================================================================== *)

(** Two adjacent whitespace characters somewhere in [s]. *)
Fixpoint has_ws_run (s : str) : bool :=
  match s with
  | [] => false
  | c1 :: s' =>
      match s' with
      | [] => false
      | c2 :: _ => (isspace c1 && isspace c2) || has_ws_run s'
      end
  end.

(** [s] starts, respectively ends, with a whitespace character. *)
Definition leading_ws (s : str) : bool :=
  match s with
  | [] => false
  | c :: _ => isspace c
  end.

Definition trailing_ws (s : str) : bool := leading_ws (rev s).

(** No character of [s] is the space U+0020. *)
Definition no_space (s : str) : bool := forallb (fun c => negb (c =? SPACE)) s.

(* ================================================================== *)
(** ** Sample inputs                                                   *)
(* ================================================================== *)

(** A word of 301 letters and a short sentence. *)
Definition long_word : str := repeat 97 301.
Definition short_text : str := lit "Because X causes Y.".

(** Builders for sample documents. *)
Definition txt (s : string) : node := NavigableString (lit s).

Definition el (name : string) (classes : list string)
  (attrs : list (string * string)) (contents : list node) : node :=
  Tag (lit name) (map lit classes)
      (map (fun kv => (lit (fst kv), lit (snd kv))) attrs) contents.

Definition document (contents : list node) : node :=
  Tag (lit "[document]") [] [] contents.

(** A Q&A page with the one card of the scenario. *)
Definition qa_card_q1 : node :=
  el "div" ["qa-card"] [("id", "q1")]
     [ el "h3" ["qa-question-text"] [] [txt "#Why does this happen?"];
       el "div" ["qa-content"] [] [txt "Because X causes Y."] ].

Definition qa_page : node := document [qa_card_q1].

(** Cards without an [id] attribute. *)
Definition qa_card_anonymous (question : string) : node :=
  el "div" ["qa-card"] []
     [ el "h3" ["qa-question-text"] [] [txt question];
       el "div" ["qa-content"] [] [txt "An answer."] ].

Definition qa_page_anonymous : node :=
  document [qa_card_anonymous "First?"; qa_card_anonymous "Second?"].

Definition arg_card_anonymous (claim : string) : node :=
  el "div" ["arg-card"] []
     [ el "span" ["arg-num"] [] [txt "1."];
       el "span" ["arg-claim"] [] [txt claim];
       el "div" ["arg-vastaus"] [] [txt "A response."] ].

Definition arg_page_anonymous : node :=
  document [arg_card_anonymous "One claim"; arg_card_anonymous "Another claim"].

(** The title rule of the Q&A extractor in the words of its
    specification: one leading permalink marker, if any, is removed. *)
Definition strip_one_hash (question : str) : str :=
  match question with
  | c :: rest => if c =? HASH then rest else question
  | [] => question
  end.

(** [el.contents]: the children of an element. *)
Definition contents (n : node) : list node :=
  match n with
  | NavigableString _ => []
  | Tag _ _ _ cs => cs
  end.

(** The [section] elements among the children of a container, as the
    specification of the essay extractor speaks of them. *)
Definition section_children (container : node) : list node :=
  filter (matches_compound (ByType (lit "section"))) (contents container).

(** Essay pages: without body container, with a body without sections,
    and with a section that is a grandchild of the body. *)
Definition essay_header : node :=
  el "header" ["essay-header"] [] [el "h1" [] [] [txt "Introduction"]].

Definition essay_page_no_body : node := document [essay_header].

Definition essay_page_plain : node :=
  document
    [ essay_header;
      el "div" ["essay-body"] [] [el "p" [] [] [txt "Some text."]] ].

Definition essay_body_nested : node :=
  el "div" ["essay-body"] []
     [ el "div" ["part"] []
          [ el "section" [] []
               [ el "h2" [] [] [txt "Part one"];
                 el "p" [] [] [txt "Some text."] ] ] ].

Definition essay_page_nested : node := document [essay_header; essay_body_nested].

(** A fully-qualified external link in the words of the specification of
    the table-of-contents extractor: an absolute [http] or [https] URL.
    The extractor itself tests [startswith("http")]. *)
Definition fully_qualified_external (url : str) : bool :=
  startswith (lit "http://") url || startswith (lit "https://") url.

(** Chapters of a table of contents: with an external link, with an
    internal link, and with an internal link whose file name begins with
    "http". *)
Definition toc_chapter_with (title_contents : list node) : node :=
  el "div" ["toc-chapter"] []
     [ el "div" ["toc-chapter-title"] [] title_contents;
       el "ul" ["toc-sections"] [] [el "li" [] [] [txt "First part"]] ].

Definition toc_chapter_external : node :=
  toc_chapter_with [el "a" [] [("href", "https://example.org/luku1")] [txt "Luku 1"]].

Definition toc_chapter_internal : node :=
  toc_chapter_with [el "a" [] [("href", "luku1.html")] [txt "Luku 1"]].

Definition toc_chapter_http_file : node :=
  toc_chapter_with [el "a" [] [("href", "http-ja-https.html")] [txt "Luku 2"]].

(** The DOM identifiers of the elements of a page found by a class
    selector, the empty string standing for a missing [id] attribute as
    in [el.get("id", "")]; none for a page that does not exist. *)
Definition dom_ids (cls : string) (page : option node) : list str :=
  match page with
  | Some soup =>
      map (fun e => get_default e (lit "id") []) (select (by_class cls) soup)
  | None => []
  end.

(** A valid input set in the words of the uniqueness claim: on each page
    the driver reads, the card and term elements carry distinct DOM
    identifiers. *)
Definition distinct_dom_ids (site : str -> option node) : Prop :=
  NoDup (dom_ids "qa-card" (site (lit "qa.html")))
  /\ NoDup (dom_ids "arg-card" (site (lit "argumentit.html")))
  /\ NoDup (dom_ids "arg-card" (site (lit "kielen-valta.html")))
  /\ NoDup (dom_ids "term" (site (lit "sanakirja.html"))).

(** The slug the glossary extractor makes of a term's heading, for the
    terms that have a heading. *)
Definition term_slugs (lower : str -> str) (page : option node) : list str :=
  match page with
  | Some soup =>
      flat_map
        (fun term =>
           match select_one (by_type "h3") term with
           | Some h3 => [replace [SPACE] [HYPHEN] (lower (text (Some h3)))]
           | None => []
           end)
        (select (by_class "term") soup)
  | None => []
  end.

(** [str.lower] on ASCII text, to run the examples. *)
Definition ascii_lower (s : str) : str :=
  map (fun c => if (65 <=? c) && (c <=? 90) then c + 32 else c) s.

(** A site directory given by the list of its pages. *)
Fixpoint site_of (files : list (string * node)) (filename : str) : option node :=
  match files with
  | [] => None
  | (name, soup) :: rest =>
      if str_eqb (lit name) filename then Some soup else site_of rest filename
  end.

(** A glossary whose two terms have distinct DOM identifiers and the same
    heading, and a glossary with two different headings. *)
Definition glossary_term (dom_id heading definition : string) : node :=
  el "div" ["term"] [("id", dom_id)]
     [ el "h3" [] [] [txt heading]; el "p" [] [] [txt definition] ].

Definition glossary_page_homonyms : node :=
  document [ glossary_term "t1" "Kannustin" "First sense.";
             glossary_term "t2" "Kannustin" "Second sense." ].

Definition glossary_page : node :=
  document [ glossary_term "t1" "Kannustin" "An incentive.";
             glossary_term "t2" "Kielen valta" "The power of language." ].

Definition site_homonyms : str -> option node :=
  site_of [("sanakirja.html", glossary_page_homonyms)].

Definition arg_page : node :=
  document
    [ el "div" ["arg-card"] [("id", "a1")]
         [ el "span" ["arg-num"] [] [txt "1."];
           el "span" ["arg-claim"] [] [txt "One claim"];
           el "div" ["arg-vastaus"] [] [txt "A response."] ] ].

(** A site with every page but the arguments page. *)
Definition site_sample : str -> option node :=
  site_of [ ("qa.html", qa_page);
            ("kielen-valta.html", arg_page);
            ("kannustinketju.html", essay_page_nested);
            ("sanakirja.html", glossary_page) ].

(** A world before the first run: no output file, nothing printed. *)
Definition world_of (site : str -> option node) : world :=
  {| pages := site;
     output_path := lit "search-index.json";
     output_file := None;
     stdout := [] |}.

(** Every string of a list starts with [p]. *)
Definition starts (p : str) (l : list str) : Prop :=
  Forall (fun s => startswith p s = true) l.

(** The page of each stage of the driver and the type tag of its
    records. *)
Definition stages : list (string * string) :=
  [ ("qa.html", "qa");
    ("argumentit.html", "arg");
    ("kielen-valta.html", "kieli");
    ("kannustinketju.html", "kannustin");
    ("sanakirja.html", "termi") ].

(** The files a run reads. *)
Definition input_files : list str := map (fun st => lit (fst st)) stages.


(** One member of a serialized object: the key, the key separator, the
    value. *)
Definition member (key : string) (value : str) : str :=
  encode_basestring (lit key) ++ key_separator ++ encode_basestring value.

(** The keys of a list of items are in ascending order. *)
Fixpoint keys_ascending (l : list (str * str)) : bool :=
  match l with
  | [] => true
  | kv :: l' =>
      match l' with
      | [] => true
      | kv' :: _ => str_leb (fst kv) (fst kv') && keys_ascending l'
      end
  end.

(** The first key of a list of items is not below [k]. *)
Definition above (k : str) (l : list (str * str)) : bool :=
  match l with
  | [] => true
  | kv :: _ => str_leb k (fst kv)
  end.

(** The lines of a text and the number of spaces each starts with. *)
Fixpoint lines_from (current : str) (s : str) : list str :=
  match s with
  | [] => [rev current]
  | c :: s' =>
      if c =? NEWLINE then rev current :: lines_from [] s'
      else lines_from (c :: current) s'
  end.

Definition lines (s : str) : list str := lines_from [] s.

Fixpoint leading_spaces (line : str) : nat :=
  match line with
  | c :: line' => if c =? SPACE then S (leading_spaces line') else O
  | [] => O
  end.

Definition indents (s : str) : list nat := map leading_spaces (lines s).

(** Multi-space indentation in the words of the serializer's
    specification: every indented line starts with two spaces or more. *)
Definition multi_space_indented (s : str) : bool :=
  forallb (fun n => (n =? 0)%nat || (2 <=? n)%nat) (indents s).

(** ** Further checks and samples *)

(** A character other than whitespace. *)
Definition non_ws (c : char) : bool := negb (isspace c).

(** Every whitespace character of [s] is the plain space U+0020. *)
Definition only_plain_spaces (s : str) : bool :=
  forallb (fun c => non_ws c || (c =? SPACE)) s.

(** [s] is normalized: no two adjacent whitespace characters, none at
    either end. *)
Definition normalized (s : str) : bool :=
  negb (has_ws_run s) && negb (leading_ws s) && negb (trailing_ws s).

(** A record with empty fields, the default of positional lookups in
    the examples. *)
Definition blank_entry : entry :=
  {| e_id := []; e_title := []; e_content := []; e_excerpt := [];
     e_url := []; e_type := []; e_type_label := [] |}.

(** The link target the loop of [parse_sisallys] binds to [url] for a
    chapter, none for a chapter without title element (the loop
    continues).  A link was selected by its [href], so the attribute is
    there. *)
Definition toc_target (chapter : node) : list str :=
  match select_one (by_class "toc-chapter-title") chapter with
  | None => []
  | Some title_el =>
      match select_one (by_type_attr "a" "href") title_el with
      | Some link => [get_default link (lit "href") []]
      | None => [lit "sisallys"]
      end
  end.

Definition toc_targets (soup : node) : list str :=
  flat_map toc_target (select (by_class "toc-chapter") soup).

(** [old] occurs in [s] at one of the first [n] positions. *)
Fixpoint occurs_within (n : nat) (old s : str) : bool :=
  match n with
  | O => false
  | S n' =>
      startswith old s
      || match s with
         | [] => false
         | _ :: s' => occurs_within n' old s'
         end
  end.

(** A table of contents with two chapters without link, and a chapter
    with a badge at the end of its title. *)
Definition toc_page_unlinked : node :=
  document [ toc_chapter_with [txt "Luku 3"]; toc_chapter_with [txt "Luku 4"] ].

Definition toc_title_badged : node :=
  el "div" ["toc-chapter-title"] []
     [ txt "Chapter 1"; el "span" ["toc-badge"] [] [txt "NEW"] ].

Definition toc_chapter_badged : node :=
  el "div" ["toc-chapter"] [] [toc_title_badged].

(** An argument card with a label and neither number nor claim. *)
Definition arg_card_label_only : node :=
  el "div" ["arg-card"] [("id", "a9")]
     [ el "span" ["arg-label"] [] [txt "huomio"];
       el "div" ["arg-body"] [] [txt "A body."] ].

(** A text node of 353 characters, words of four letters. *)
Definition long_paragraph : node :=
  NavigableString (List.concat (repeat (lit "word ") 70) ++ lit "end").

(* ================================================================== *)
(** ** The driver with the errors of its input and output              *)
(* ================================================================== *)

(** A lone surrogate, U+D800 to U+DFFF.  A page can hold one: the parser
    turns the character reference [&#xD800;] into it. *)
Definition is_surrogate (c : char) : bool := (55296 <=? c) && (c <=? 57343).

Definition has_surrogate (s : str) : bool := existsb is_surrogate s.

(** [s.encode("utf-8")] as Python has it: a lone surrogate raises. *)
Fixpoint utf8_encode_strict (s : str) : result (list byte) :=
  match s with
  | [] => Ok []
  | c :: s' =>
      if is_surrogate c then Raise (UnicodeEncodeError c)
      else
        rest <- utf8_encode_strict s' ;;
        Ok (utf8_char c ++ rest)
  end.

Module IO.

(** A file of [SITE_DIR] that exists: one that cannot be read, with the
    exception that [read_text] raises for it ([UnicodeDecodeError] for
    bytes that are not UTF-8, [OSError] for a directory or a file without
    read permission), or a page, with the tree [html.parser] builds from
    its text. *)
Inductive file : Type :=
| Unreadable (e : exn)
| Page (soup : node).

(** The disk and the terminal of a run: the files of [SITE_DIR] by name;
    the output file [OUTPUT] with the text of its path, the exception that
    opening it for writing raises, if any, and its bytes if it exists; and
    the lines printed so far.  Line ends are written as they are, as on a
    POSIX system, and the terminal takes every line printed. *)
Record disk : Type := {
  files : str -> option file;
  output_path : str;
  open_error : option exn;
  output_file : option (list byte);
  stdout : list str
}.

Definition io (A : Type) : Type := disk -> result A * disk.

Definition io_ret {A : Type} (a : A) : io A := fun d => (Ok a, d).

Definition io_bind {A B : Type} (c : io A) (k : A -> io B) : io B :=
  fun d =>
    match c d with
    | (Ok a, d') => k a d'
    | (Raise e, d') => (Raise e, d')
    end.

#[local] Notation "x <~~ c ;; k" := (io_bind c (fun x => k))
  (at level 61, c at next level, right associativity).
#[local] Notation "c ;;;; k" := (io_bind c (fun _ => k))
  (at level 61, right associativity).

Definition lift {A : Type} (r : result A) : io A := fun d => (r, d).

(** [print(line)]. *)
Definition print (line : str) : io unit :=
  fun d =>
    (Ok tt, {| files := files d;
               output_path := output_path d;
               open_error := open_error d;
               output_file := output_file d;
               stdout := stdout d ++ [line] |}).

(** [load_soup(filename)]: a file that is not there is skipped with a
    notice; a file that is there is read and parsed, and what reading it
    raises is not caught. *)
Definition load_soup (filename : str) : io (option node) :=
  fun d =>
    match files d filename with
    | None => (print (skip_notice filename) ;;;; io_ret None) d
    | Some (Unreadable e) => (Raise e, d)
    | Some (Page soup) => io_ret (Some soup) d
    end.

(** [OUTPUT.write_text(data, encoding="utf-8")]: the file is opened for
    writing, which empties it, and the encoded text is written; when
    encoding raises, nothing has been written and the file stays empty. *)
Definition write_text (data : str) : io unit :=
  fun d =>
    match open_error d with
    | Some e => (Raise e, d)
    | None =>
        match utf8_encode_strict data with
        | Ok bytes =>
            (Ok tt, {| files := files d;
                       output_path := output_path d;
                       open_error := open_error d;
                       output_file := Some bytes;
                       stdout := stdout d |})
        | Raise e =>
            (Raise e, {| files := files d;
                         output_path := output_path d;
                         open_error := open_error d;
                         output_file := Some [];
                         stdout := stdout d |})
        end
    end.

(** [OUTPUT.stat().st_size]. *)
Definition st_size : io nat :=
  fun d =>
    match output_file d with
    | Some bytes => (Ok (List.length bytes), d)
    | None => (Raise (FileNotFoundError (output_path d)), d)
    end.

Section Driver.

Variable lower : str -> str.

Definition main : io unit :=
  let all_entries : list entry := [] in
  (* Q&A *)
  print (lit "Indexing qa.html...") ;;;;
  soup <~~ load_soup (lit "qa.html") ;;
  all_entries <~~
    match soup with
    | Some soup =>
        let entries := parse_qa soup in
        print (lit "  " ++ str_of_nat (List.length entries) ++ lit " Q&A cards") ;;;;
        io_ret (all_entries ++ entries)
    | None => io_ret all_entries
    end ;;
  (* Argumentit *)
  print (lit "Indexing argumentit.html...") ;;;;
  soup <~~ load_soup (lit "argumentit.html") ;;
  all_entries <~~
    match soup with
    | Some soup =>
        let entries :=
          parse_arg_cards soup (lit "argumentit") (lit "arg") (lit "Systeemivirhe") in
        print (lit "  " ++ str_of_nat (List.length entries) ++ lit " arguments") ;;;;
        io_ret (all_entries ++ entries)
    | None => io_ret all_entries
    end ;;
  (* Kielen valta *)
  print (lit "Indexing kielen-valta.html...") ;;;;
  soup <~~ load_soup (lit "kielen-valta.html") ;;
  all_entries <~~
    match soup with
    | Some soup =>
        let entries :=
          parse_arg_cards soup (lit "kielen-valta") (lit "kieli") (lit "Kielen valta") in
        print (lit "  " ++ str_of_nat (List.length entries)
               ++ lit " language patterns") ;;;;
        io_ret (all_entries ++ entries)
    | None => io_ret all_entries
    end ;;
  (* Kannustinketju *)
  print (lit "Indexing kannustinketju.html...") ;;;;
  soup <~~ load_soup (lit "kannustinketju.html") ;;
  all_entries <~~
    match soup with
    | Some soup =>
        entries <~~ lift (parse_essay soup (lit "kannustinketju") (lit "kannustin")
                                      (lit "Kannustinketju")) ;;
        print (lit "  " ++ str_of_nat (List.length entries) ++ lit " sections") ;;;;
        io_ret (all_entries ++ entries)
    | None => io_ret all_entries
    end ;;
  (* sanakirja page terms *)
  print (lit "Indexing sanakirja.html terms...") ;;;;
  soup <~~ load_soup (lit "sanakirja.html") ;;
  all_entries <~~
    match soup with
    | Some soup =>
        let entries := parse_terms lower soup in
        print (lit "  " ++ str_of_nat (List.length entries) ++ lit " terms") ;;;;
        io_ret (all_entries ++ entries)
    | None => io_ret all_entries
    end ;;
  (* Write output *)
  write_text (dumps all_entries) ;;;;
  size <~~ st_size ;;
  path <~~ (fun d => (Ok (output_path d), d)) ;;
  print (NEWLINE :: lit "Wrote " ++ str_of_nat (List.length all_entries)
         ++ lit " entries to " ++ path ++ lit " (" ++ format_kb size ++ lit " KB)").

End Driver.

(** The pages of a disk: the trees of the files that can be read. *)
Definition pages (d : disk) (filename : str) : option node :=
  match files d filename with
  | Some (Page soup) => Some soup
  | _ => None
  end.

(** What reading the first of the given files that cannot be read
    raises. *)
Fixpoint first_unreadable (d : disk) (filenames : list str) : option exn :=
  match filenames with
  | [] => None
  | filename :: rest =>
      match files d filename with
      | Some (Unreadable e) => Some e
      | _ => first_unreadable d rest
      end
  end.

(** A disk from the list of its files, with an output file that can be
    written and does not exist yet. *)
Fixpoint files_of (l : list (string * file)) (filename : str) : option file :=
  match l with
  | [] => None
  | (name, f) :: rest =>
      if str_eqb (lit name) filename then Some f else files_of rest filename
  end.

Definition disk_of (l : list (string * file)) : disk :=
  {| files := files_of l;
     output_path := lit "search-index.json";
     open_error := None;
     output_file := None;
     stdout := [] |}.

End IO.

(** A Q&A page whose one card holds the character reference [&#xD800;]
    in its answer, and a disk with that page and no arguments page. *)
Definition qa_page_surrogate : node :=
  document
    [ el "div" ["qa-card"] [("id", "q1")]
         [ el "h3" ["qa-question-text"] [] [txt "Why?"];
           el "div" ["qa-content"] [] [NavigableString (lit "Because " ++ [55296])] ] ].

Definition disk_surrogate : IO.disk :=
  IO.disk_of [("qa.html", IO.Page qa_page_surrogate)].

(** A disk with every page but the arguments page, and one whose glossary
    file is not UTF-8. *)
Definition disk_sample : IO.disk :=
  IO.disk_of [ ("qa.html", IO.Page qa_page);
               ("kielen-valta.html", IO.Page arg_page);
               ("kannustinketju.html", IO.Page essay_page_nested);
               ("sanakirja.html", IO.Page glossary_page) ].

Definition disk_latin1 : IO.disk :=
  IO.disk_of [ ("qa.html", IO.Page qa_page);
               ("sanakirja.html",
                IO.Unreadable (UnicodeDecodeError (lit "sanakirja.html"))) ].

(** A Q&A page with one card, which has no [id] attribute. *)
Definition qa_page_one_anonymous : node :=
  document [qa_card_anonymous "Only?"].

(** The sample disk after an earlier run: an output file is there. *)
Definition disk_used : IO.disk :=
  {| IO.files := IO.files disk_sample;
     IO.output_path := lit "public/search-index.json";
     IO.open_error := None;
     IO.output_file := Some [x5b; x5d];
     IO.stdout := [lit "earlier output"] |}.

(* ================================================================== *)
(** * Theorems                                                         *)
(* ================================================================== *)

(** ** Strings *)

Lemma str_eqb_eq (a b : str) : str_eqb a b = true <-> a = b.
Proof.
  revert b; induction a as [|x a IH]; intros [|y b]; simpl;
    try (split; intro H; [discriminate|discriminate]); try tauto.
  rewrite andb_true_iff, N.eqb_eq, IH.
  split; [intros [-> ->]; reflexivity | intros H; inversion H; auto].
Qed.

Lemma before_last_space_shorter (s p : str) :
  before_last_space s = Some p -> (List.length p < List.length s)%nat.
Proof.
  revert p; induction s as [|c s IH]; simpl; intros p H; [discriminate|].
  destruct (before_last_space s) as [q|].
  - inversion H; subst; simpl. specialize (IH q eq_refl). lia.
  - destruct (c =? SPACE); inversion H; subst; simpl; lia.
Qed.

Lemma rsplit1_head_length (s : str) :
  (List.length (rsplit1_head s) <= List.length s)%nat.
Proof.
  unfold rsplit1_head.
  destruct (before_last_space s) as [p|] eqn:E; [|lia].
  apply before_last_space_shorter in E; lia.
Qed.

Lemma before_last_space_none (s : str) :
  no_space s = true -> before_last_space s = None.
Proof.
  induction s as [|c s IH]; simpl; [reflexivity|].
  rewrite andb_true_iff, negb_true_iff; intros [Hc Hs].
  rewrite (IH Hs), Hc; reflexivity.
Qed.

Lemma no_space_firstn (n : nat) (s : str) :
  no_space s = true -> no_space (firstn n s) = true.
Proof.
  revert n; induction s as [|c s IH]; intros [|n]; simpl; auto.
  rewrite !andb_true_iff; intros [Hc Hs]; auto.
Qed.

(** C2. [truncate] with the default bound 300 returns at most 301
    characters; a string of at most 300 characters comes back unchanged;
    a string of 301 characters none of which is a space is cut hard after
    its first 300 characters, followed by the one-character ellipsis. *)
Theorem truncate_default_bound (s : str) :
  (List.length (truncate s) <= 301)%nat
  /\ ((List.length s <= 300)%nat -> truncate s = s)
  /\ (List.length s = 301%nat -> no_space s = true ->
      truncate s = firstn 300 s ++ [ELLIPSIS]).
Proof.
  unfold truncate, truncate_to.
  destruct (Nat.leb_spec (List.length s) 300) as [Hle|Hgt].
  - split; [lia|]. split; [reflexivity | intros; lia].
  - split; [|split].
    + rewrite length_app.
      pose proof (rsplit1_head_length (firstn 300 s)) as H.
      rewrite length_firstn in H. change (List.length [ELLIPSIS]) with 1%nat. lia.
    + lia.
    + intros _ Hns. unfold rsplit1_head.
      now rewrite (before_last_space_none _ (no_space_firstn 300 _ Hns)).
Qed.

Lemma truncate_default_bound_witness :
  (List.length (truncate long_word) <= 301)%nat
  /\ truncate short_text = short_text
  /\ truncate long_word = firstn 300 long_word ++ [ELLIPSIS].
Proof.
  split; [apply (truncate_default_bound long_word)|].
  split.
  - apply (truncate_default_bound short_text). simpl; lia.
  - apply (truncate_default_bound long_word); reflexivity.
Defined.

(** ** The text normalizer *)

Section Normalizer.

(** What [has_ws_run] decides. *)
Lemma has_ws_run_spec (s : str) :
  has_ws_run s = false <->
  (forall a c1 c2 b, s = a ++ c1 :: c2 :: b -> isspace c1 && isspace c2 = false).
Proof.
  induction s as [|c s IH].
  - split; [|reflexivity]. intros _ [|x a] c1 c2 b H; discriminate H.
  - destruct s as [|d s].
    + split; [|reflexivity].
      intros _ [|x [|y a]] c1 c2 b H; discriminate H.
    + change (has_ws_run (c :: d :: s))
        with ((isspace c && isspace d) || has_ws_run (d :: s)).
      rewrite orb_false_iff, IH. split.
      * intros [H0 H] [|x a] c1 c2 b E; simpl in E; inversion E; subst; eauto.
      * intros H; split.
        -- apply (H [] c d s eq_refl).
        -- intros a c1 c2 b E. apply (H (c :: a) c1 c2 b). now rewrite E.
Qed.

Lemma has_ws_run_cons (c : char) (s : str) :
  has_ws_run (c :: s) = (isspace c && leading_ws s) || has_ws_run s.
Proof. destruct s; simpl; [now rewrite andb_false_r | reflexivity]. Qed.

Lemma has_ws_run_app_l (a b : str) :
  has_ws_run (a ++ b) = false -> has_ws_run a = false.
Proof.
  rewrite !has_ws_run_spec. intros H x c1 c2 y E.
  apply (H x c1 c2 (y ++ b)). rewrite E, <- app_assoc. reflexivity.
Qed.

Lemma has_ws_run_app_r (a b : str) :
  has_ws_run (a ++ b) = false -> has_ws_run b = false.
Proof.
  rewrite !has_ws_run_spec. intros H x c1 c2 y E.
  apply (H (a ++ x) c1 c2 y). rewrite E, <- app_assoc. reflexivity.
Qed.

(** After the substitution no two whitespace characters are adjacent, and
    a run that is being consumed writes no whitespace first. *)
Lemma sub_ws_run_collapsed (s : str) (in_run : bool) :
  has_ws_run (sub_ws_run in_run s) = false
  /\ (in_run = true -> leading_ws (sub_ws_run in_run s) = false).
Proof.
  revert in_run; induction s as [|c s IH]; intros in_run; simpl.
  - split; reflexivity.
  - destruct (isspace c) eqn:Hc.
    + destruct in_run.
      * apply IH.
      * split; [|discriminate].
        rewrite has_ws_run_cons.
        destruct (IH true) as [H1 H2]. rewrite H1, (H2 eq_refl).
        now rewrite andb_false_r.
    + split.
      * rewrite has_ws_run_cons, Hc. apply (IH false).
      * intros _; simpl; exact Hc.
Qed.

Lemma lstrip_suffix (s : str) : exists t, s = t ++ lstrip s.
Proof.
  induction s as [|c s [t IH]]; simpl.
  - now exists [].
  - destruct (isspace c).
    + exists (c :: t). simpl. now rewrite <- IH.
    + now exists [].
Qed.

Lemma lstrip_leading (s : str) : leading_ws (lstrip s) = false.
Proof.
  induction s as [|c s IH]; simpl; [reflexivity|].
  destruct (isspace c) eqn:Hc; [exact IH | simpl; exact Hc].
Qed.

Lemma rstrip_prefix (s : str) : exists t, s = rstrip s ++ t.
Proof.
  unfold rstrip. destruct (lstrip_suffix (rev s)) as [t E].
  exists (rev t). rewrite <- rev_app_distr, <- E. now rewrite rev_involutive.
Qed.

Lemma rstrip_trailing (s : str) : trailing_ws (rstrip s) = false.
Proof.
  unfold trailing_ws, rstrip. rewrite rev_involutive. apply lstrip_leading.
Qed.

Lemma leading_ws_prefix (a b : str) :
  leading_ws (a ++ b) = false -> leading_ws a = false.
Proof. destruct a; simpl; auto. Qed.

(** [strip] keeps the absence of whitespace runs and leaves no whitespace
    at either end. *)
Lemma strip_clean (s : str) :
  has_ws_run s = false ->
  has_ws_run (strip s) = false
  /\ leading_ws (strip s) = false
  /\ trailing_ws (strip s) = false.
Proof.
  intros H. unfold strip.
  destruct (lstrip_suffix s) as [t Et].
  destruct (rstrip_prefix (lstrip s)) as [u Eu].
  assert (Hl : has_ws_run (lstrip s) = false).
  { rewrite Et in H. exact (has_ws_run_app_r _ _ H). }
  repeat split.
  - rewrite Eu in Hl. exact (has_ws_run_app_l _ _ Hl).
  - apply leading_ws_prefix with (b := u). rewrite <- Eu. apply lstrip_leading.
  - apply rstrip_trailing.
Qed.

(** A string without whitespace at its ends is left alone by [strip]. *)
Lemma lstrip_id (s : str) : leading_ws s = false -> lstrip s = s.
Proof. destruct s as [|c s]; simpl; [reflexivity|]. now intros ->. Qed.

Lemma strip_id (s : str) :
  leading_ws s = false -> trailing_ws s = false -> strip s = s.
Proof.
  intros Hl Ht. unfold strip, rstrip. rewrite (lstrip_id _ Hl).
  unfold trailing_ws in Ht. rewrite (lstrip_id _ Ht). apply rev_involutive.
Qed.

(** The text of an element is free of whitespace runs and of whitespace
    at its ends. *)
Lemma text_clean (el : option node) :
  has_ws_run (text el) = false
  /\ leading_ws (text el) = false
  /\ trailing_ws (text el) = false.
Proof.
  destruct el as [el|]; simpl; [|auto].
  apply strip_clean. apply (sub_ws_run_collapsed _ false).
Qed.

End Normalizer.

(** C3. The text of any node has no two adjacent whitespace characters
    and neither starts nor ends with whitespace; for the absent node
    [None] the normalizer returns the empty string. *)
Theorem text_normalized (el : option node) :
  has_ws_run (text el) = false
  /\ leading_ws (text el) = false
  /\ trailing_ws (text el) = false
  /\ text None = [].
Proof.
  destruct (text_clean el) as (H1 & H2 & H3). auto.
Qed.

(** ** Selection *)

Section Selection.

Variable sel : selector.

(** Whatever [select] returns matches the selector. *)
Lemma select_matches (root x : node) :
  In x (select sel root) -> exists ancestors, matches sel ancestors x = true.
Proof.
  unfold select. rewrite in_map_iff. intros [[ancestors y] [E H]].
  simpl in E; subst y. apply filter_In in H. destruct H as [_ H].
  now exists ancestors.
Qed.

Lemma select_one_in (root x : node) :
  select_one sel root = Some x -> In x (select sel root).
Proof.
  unfold select_one. destruct (select sel root) as [|y l]; simpl.
  - discriminate.
  - intros H; inversion H; auto.
Qed.

Lemma select_one_matches (root x : node) :
  select_one sel root = Some x -> exists ancestors, matches sel ancestors x = true.
Proof. intros H. apply select_matches with root. now apply select_one_in. Qed.

End Selection.

(** An element found by [tag[attr]] has the attribute, so that subscripting
    it cannot raise. *)
Lemma selected_attr_present (t a : string) (root x : node) :
  select_one (by_type_attr t a) root = Some x ->
  exists v, get x (lit a) = Some v.
Proof.
  intros H. apply select_one_matches in H. destruct H as [ancestors H].
  destruct x as [s|name classes attrs contents]; simpl in H; [discriminate|].
  apply andb_true_iff in H. destruct H as [_ H]. simpl.
  destruct (attrs_get attrs (lit a)) as [v|]; [now exists v | discriminate].
Qed.

(** ** The Q&A and argument-card extractors *)

(** C5. A page whose one card has identifier [q1], question text
    "#Why does this happen?" and body "Because X causes Y." yields exactly
    the record of the scenario; and for every card the title is the
    normalized question text with one leading "#" removed, then trimmed. *)
Theorem parse_qa_scenario (soup : node) :
  (forall card,
      select (by_class "qa-card") soup = [card] ->
      get card (lit "id") = Some (lit "q1") ->
      text (select_one (by_class "qa-question-text") card)
        = lit "#Why does this happen?" ->
      text (select_one (by_class "qa-content") card) = lit "Because X causes Y." ->
      parse_qa soup =
        [ {| e_id := lit "qa-q1";
             e_title := lit "Why does this happen?";
             e_content := lit "Because X causes Y.";
             e_excerpt := lit "Because X causes Y.";
             e_url := lit "qa#q1";
             e_type := lit "qa";
             e_type_label := lit "Q&A" |} ])
  /\ (forall i card,
         nth_error (select (by_class "qa-card") soup) i = Some card ->
         exists r,
           nth_error (parse_qa soup) i = Some r
           /\ e_title r =
                strip (strip_one_hash
                         (text (select_one (by_class "qa-question-text") card)))).
Proof.
  split.
  - intros card Hsel Hid Hq Hc. unfold parse_qa. rewrite Hsel. simpl.
    unfold qa_card, get_default. rewrite Hid, Hq, Hc. reflexivity.
  - intros i card Hin. exists (qa_card card). split.
    + unfold parse_qa. now apply map_nth_error.
    + unfold qa_card; simpl.
      set (q := text (select_one (by_class "qa-question-text") card)).
      destruct (text_clean (select_one (by_class "qa-question-text") card))
        as (_ & Hl & Ht). fold q in Hl, Ht.
      destruct q as [|c rest]; [reflexivity|].
      simpl. rewrite andb_true_r, (N.eqb_sym HASH c).
      destruct (c =? HASH); [reflexivity|].
      symmetry. now apply strip_id.
Qed.

Lemma parse_qa_scenario_witness :
  parse_qa qa_page =
    [ {| e_id := lit "qa-q1";
         e_title := lit "Why does this happen?";
         e_content := lit "Because X causes Y.";
         e_excerpt := lit "Because X causes Y.";
         e_url := lit "qa#q1";
         e_type := lit "qa";
         e_type_label := lit "Q&A" |} ]
  /\ exists r,
       nth_error (parse_qa qa_page) 0 = Some r
       /\ e_title r = lit "Why does this happen?".
Proof.
  split.
  - apply (proj1 (parse_qa_scenario qa_page) qa_card_q1); reflexivity.
  - destruct (proj2 (parse_qa_scenario qa_page) 0%nat qa_card_q1) as [r [Hin Ht]].
    + reflexivity.
    + exists r. split; [exact Hin | rewrite Ht; reflexivity].
Defined.

(** A card without [id] attribute gets the bare prefix as identifier. *)
Lemma qa_card_anonymous_id (card : node) :
  get card (lit "id") = None ->
  e_id (qa_card card) = lit "qa-" /\ e_url (qa_card card) = lit "qa#".
Proof. intros H. unfold qa_card, get_default. rewrite H. split; reflexivity. Qed.

Lemma arg_card_anonymous_id (page_url type_id type_label : str) (card : node) :
  get card (lit "id") = None ->
  e_id (arg_card page_url type_id type_label card) = type_id ++ lit "-"
  /\ e_url (arg_card page_url type_id type_label card) = page_url ++ lit "#".
Proof. intros H. unfold arg_card, get_default. rewrite H. split; reflexivity. Qed.

(** C10. A Q&A or argument card without [id] attribute is not skipped:
    each extractor returns one record per card of the page, the card at
    position [i] giving the record at position [i], and the record of a
    card without [id] has the bare prefix and a hyphen as identifier and
    an empty fragment in its url.  So two such cards of one page give
    records with equal identifiers. *)
Theorem cards_without_id (soup : node) :
  List.length (parse_qa soup) = List.length (select (by_class "qa-card") soup)
  /\ (forall i card,
         nth_error (select (by_class "qa-card") soup) i = Some card ->
         get card (lit "id") = None ->
         exists r,
           nth_error (parse_qa soup) i = Some r
           /\ e_id r = lit "qa-" /\ e_url r = lit "qa#")
  /\ (forall page_url type_id type_label,
         List.length (parse_arg_cards soup page_url type_id type_label)
         = List.length (select (by_class "arg-card") soup)
         /\ forall i card,
              nth_error (select (by_class "arg-card") soup) i = Some card ->
              get card (lit "id") = None ->
              exists r,
                nth_error (parse_arg_cards soup page_url type_id type_label) i
                = Some r
                /\ e_id r = type_id ++ lit "-"
                /\ e_url r = page_url ++ lit "#")
  /\ (forall i j c1 c2,
         i <> j ->
         nth_error (select (by_class "qa-card") soup) i = Some c1 ->
         nth_error (select (by_class "qa-card") soup) j = Some c2 ->
         get c1 (lit "id") = None ->
         get c2 (lit "id") = None ->
         exists r1 r2,
           nth_error (parse_qa soup) i = Some r1
           /\ nth_error (parse_qa soup) j = Some r2
           /\ e_id r1 = e_id r2)
  /\ (forall page_url type_id type_label i j c1 c2,
         i <> j ->
         nth_error (select (by_class "arg-card") soup) i = Some c1 ->
         nth_error (select (by_class "arg-card") soup) j = Some c2 ->
         get c1 (lit "id") = None ->
         get c2 (lit "id") = None ->
         exists r1 r2,
           nth_error (parse_arg_cards soup page_url type_id type_label) i = Some r1
           /\ nth_error (parse_arg_cards soup page_url type_id type_label) j = Some r2
           /\ e_id r1 = e_id r2).
Proof.
  split; [apply length_map|]. split.
  { intros i card E H. exists (qa_card card).
    destruct (qa_card_anonymous_id card H) as [Hid Hurl].
    unfold parse_qa. now rewrite (map_nth_error qa_card i _ E). }
  split.
  { intros page_url type_id type_label. split; [apply length_map|].
    intros i card E H. exists (arg_card page_url type_id type_label card).
    destruct (arg_card_anonymous_id page_url type_id type_label card H)
      as [Hid Hurl].
    unfold parse_arg_cards. now rewrite (map_nth_error _ i _ E). }
  split.
  { intros i j c1 c2 _ E1 E2 H1 H2. exists (qa_card c1), (qa_card c2).
    destruct (qa_card_anonymous_id c1 H1) as [Hid1 _].
    destruct (qa_card_anonymous_id c2 H2) as [Hid2 _].
    unfold parse_qa.
    rewrite (map_nth_error qa_card i _ E1), (map_nth_error qa_card j _ E2).
    rewrite Hid1, Hid2. auto. }
  intros page_url type_id type_label i j c1 c2 _ E1 E2 H1 H2.
  exists (arg_card page_url type_id type_label c1),
         (arg_card page_url type_id type_label c2).
  destruct (arg_card_anonymous_id page_url type_id type_label c1 H1) as [Hid1 _].
  destruct (arg_card_anonymous_id page_url type_id type_label c2 H2) as [Hid2 _].
  unfold parse_arg_cards.
  rewrite (map_nth_error _ i _ E1), (map_nth_error _ j _ E2).
  rewrite Hid1, Hid2. auto.
Qed.

Lemma cards_without_id_witness :
  (exists r,
      nth_error (parse_qa qa_page_one_anonymous) 0 = Some r
      /\ e_id r = lit "qa-" /\ e_url r = lit "qa#")
  /\ (exists r,
         nth_error (parse_arg_cards arg_page_anonymous (lit "argumentit")
                                    (lit "arg") (lit "Systeemivirhe")) 1 = Some r
         /\ e_id r = lit "arg-" /\ e_url r = lit "argumentit#")
  /\ (exists r1 r2,
         nth_error (parse_qa qa_page_anonymous) 0 = Some r1
         /\ nth_error (parse_qa qa_page_anonymous) 1 = Some r2
         /\ e_id r1 = e_id r2)
  /\ (exists r1 r2,
         nth_error (parse_arg_cards arg_page_anonymous (lit "argumentit")
                                    (lit "arg") (lit "Systeemivirhe")) 0 = Some r1
         /\ nth_error (parse_arg_cards arg_page_anonymous (lit "argumentit")
                                       (lit "arg") (lit "Systeemivirhe")) 1 = Some r2
         /\ e_id r1 = e_id r2).
Proof.
  split; [|split; [|split]].
  - apply (proj1 (proj2 (cards_without_id qa_page_one_anonymous))
             0%nat (qa_card_anonymous "Only?")); reflexivity.
  - apply (proj2 (proj1 (proj2 (proj2 (cards_without_id arg_page_anonymous)))
                    (lit "argumentit") (lit "arg") (lit "Systeemivirhe"))
             1%nat (arg_card_anonymous "Another claim")); reflexivity.
  - apply (proj1 (proj2 (proj2 (proj2 (cards_without_id qa_page_anonymous))))
             0%nat 1%nat (qa_card_anonymous "First?") (qa_card_anonymous "Second?"));
      try reflexivity. discriminate.
  - apply (proj2 (proj2 (proj2 (proj2 (cards_without_id arg_page_anonymous))))
             (lit "argumentit") (lit "arg") (lit "Systeemivirhe")
             0%nat 1%nat (arg_card_anonymous "One claim")
             (arg_card_anonymous "Another claim"));
      try reflexivity. discriminate.
Defined.

(** ** Loops that may raise *)

Section ForEach.

Variables A B : Type.
Variable body : A -> result (list B).

(** A loop none of whose rounds raises returns what the rounds append, in
    order. *)
Lemma for_each_ok (l : list A) :
  (forall x, In x l -> exists ys, body x = Ok ys) ->
  for_each body l = Ok (flat_map (appended body) l).
Proof.
  induction l as [|x l IH]; intros H; simpl; [reflexivity|].
  destruct (H x (or_introl eq_refl)) as [ys E].
  unfold appended at 1. rewrite E. simpl.
  rewrite IH by (intros y Hy; apply H; now right). reflexivity.
Qed.

End ForEach.

(** ** The essay extractor *)

Lemma section_anchor_total (heading_el : option node) :
  exists anchor, section_anchor heading_el = Ok anchor.
Proof.
  unfold section_anchor.
  destruct heading_el as [h|]; [|now exists []].
  destruct (select_one (by_type_attr "a" "id") h) as [a|] eqn:Ea.
  - destruct (selected_attr_present "a" "id" h Ea) as [v Hv].
    unfold getitem. rewrite Hv. now exists (HASH :: v).
  - unfold getitem. destruct (get h (lit "id")) as [[|c v]|]; simpl; eauto.
Qed.

Lemma essay_section_total (page_url type_id type_label : str) (numbered : nat * node) :
  exists r,
    essay_section page_url type_id type_label numbered = Ok [r]
    /\ e_id r = type_id ++ lit "-s" ++ str_of_nat (fst numbered)
    /\ e_type r = type_id.
Proof.
  destruct numbered as [i section]. unfold essay_section.
  destruct (section_anchor_total
              (node_or (select_one (by_type "h2") section)
                       (select_one (by_type "h3") section))) as [anchor ->].
  simpl. eexists. split; [reflexivity|]. split; reflexivity.
Qed.

(** The essay extractor never raises: the only subscripts it takes are of
    attributes it has just found. *)
Lemma parse_essay_total (soup : node) (page_url type_id type_label : str) :
  exists entries, parse_essay soup page_url type_id type_label = Ok entries.
Proof.
  unfold parse_essay.
  destruct (select_one (by_class "essay-body") soup) as [body|]; [|eauto].
  destruct (select (by_type "section") body) as [|s sections]; [eauto|].
  rewrite for_each_ok; [eauto|].
  intros x _. destruct (essay_section_total page_url type_id type_label x) as [r [E _]].
  eauto.
Qed.

(** C6, as the extractor has it.  Without body container the essay
    extractor returns no record.  With a body container in which [select]
    finds no [section] element at any depth, it returns exactly one record:
    identifier the type tag followed by "-full", title the text of the
    first [h1] inside the essay header if there is one and the type label
    otherwise, url the page path without fragment; a heading reading
    "Introduction" gives the title "Introduction". *)
Theorem parse_essay_without_sections (soup : node) (page_url type_id type_label : str) :
  (select_one (by_class "essay-body") soup = None ->
   parse_essay soup page_url type_id type_label = Ok [])
  /\ (forall essay_body,
         select_one (by_class "essay-body") soup = Some essay_body ->
         select (by_type "section") essay_body = [] ->
         let h1 := select_one (Descendant (ByClass (lit "essay-header"))
                                          (ByType (lit "h1"))) soup in
         parse_essay soup page_url type_id type_label =
           Ok [ {| e_id := type_id ++ lit "-full";
                   e_title := match h1 with
                              | Some _ => text h1
                              | None => type_label
                              end;
                   e_content := text (Some essay_body);
                   e_excerpt := truncate (text (Some essay_body));
                   e_url := page_url;
                   e_type := type_id;
                   e_type_label := type_label |} ]
         /\ (forall heading,
                h1 = Some heading ->
                text (Some heading) = lit "Introduction" ->
                exists r,
                  parse_essay soup page_url type_id type_label = Ok [r]
                  /\ e_id r = type_id ++ lit "-full"
                  /\ e_title r = lit "Introduction")).
Proof.
  split.
  - intros H. unfold parse_essay. now rewrite H.
  - intros essay_body Hbody Hsections h1.
    assert (E : parse_essay soup page_url type_id type_label =
                Ok [ {| e_id := type_id ++ lit "-full";
                        e_title := match h1 with
                                   | Some _ => text h1
                                   | None => type_label
                                   end;
                        e_content := text (Some essay_body);
                        e_excerpt := truncate (text (Some essay_body));
                        e_url := page_url;
                        e_type := type_id;
                        e_type_label := type_label |} ]).
    { unfold parse_essay. rewrite Hbody, Hsections. reflexivity. }
    split; [exact E|].
    intros heading Hh Ht. eexists. split; [exact E|].
    split; [reflexivity|]. simpl. rewrite Hh. exact Ht.
Qed.

Lemma parse_essay_without_sections_witness :
  parse_essay essay_page_no_body (lit "kannustinketju") (lit "kannustin")
              (lit "Kannustinketju") = Ok []
  /\ exists r,
       parse_essay essay_page_plain (lit "kannustinketju") (lit "kannustin")
                   (lit "Kannustinketju") = Ok [r]
       /\ e_id r = lit "kannustin-full"
       /\ e_title r = lit "Introduction".
Proof.
  split.
  - apply (parse_essay_without_sections essay_page_no_body). reflexivity.
  - destruct (parse_essay_without_sections essay_page_plain (lit "kannustinketju")
                (lit "kannustin") (lit "Kannustinketju")) as [_ H].
    destruct (H (el "div" ["essay-body"] [] [el "p" [] [] [txt "Some text."]])
                eq_refl eq_refl) as [_ H'].
    apply (H' (el "h1" [] [] [txt "Introduction"])); reflexivity.
Defined.

(** C6 speaks of a body without [section] children.  A body whose
    only section is a grandchild has no section child, yet the extractor
    finds the section and returns the record of section 0, not the
    whole-body record. *)
Lemma essay_nested_section_counterexample :
  select_one (by_class "essay-body") essay_page_nested = Some essay_body_nested
  /\ section_children essay_body_nested = []
  /\ exists r,
       parse_essay essay_page_nested (lit "kannustinketju") (lit "kannustin")
                   (lit "Kannustinketju") = Ok [r]
       /\ e_id r = lit "kannustin-s0"
       /\ e_id r <> lit "kannustin" ++ lit "-full"
       /\ e_title r = lit "Part one"
       /\ e_title r <> lit "Introduction".
Proof.
  split; [reflexivity|]. split; [reflexivity|].
  eexists. split; [vm_compute; reflexivity|].
  repeat split; try reflexivity; intros H; vm_compute in H; discriminate H.
Qed.

(** ** The table-of-contents extractor *)

Lemma startswith_app (p s : str) : startswith p (p ++ s) = true.
Proof.
  induction p as [|c p IH]; simpl; [reflexivity|].
  now rewrite N.eqb_refl, IH.
Qed.

Lemma startswith_split (p s : str) :
  startswith p s = true -> exists t, s = p ++ t.
Proof.
  revert s; induction p as [|c p IH]; intros s; simpl.
  - intros _; now exists s.
  - destruct s as [|d s]; [discriminate|].
    rewrite andb_true_iff, N.eqb_eq. intros [-> H].
    destruct (IH s H) as [t ->]. now exists t.
Qed.

(** Every absolute [http] or [https] URL passes the extractor's test. *)
Lemma fully_qualified_startswith_http (url : str) :
  fully_qualified_external url = true -> startswith (lit "http") url = true.
Proof.
  unfold fully_qualified_external. rewrite orb_true_iff.
  intros [H|H]; apply startswith_split in H; destruct H as [t ->]; reflexivity.
Qed.

(** What the loop body does with a chapter that has a title element; in
    particular it never raises. *)
Lemma toc_chapter_titled (chapter title_el : node) :
  select_one (by_class "toc-chapter-title") chapter = Some title_el ->
  exists r url,
    toc_chapter chapter = Ok [r]
    /\ e_id r = lit "toc-" ++ url
    /\ e_url r = (if startswith (lit "http") url then url else lit "sisallys")
    /\ match select_one (by_type_attr "a" "href") title_el with
       | Some link => get link (lit "href") = Some url
       | None => url = lit "sisallys"
       end.
Proof.
  intros Ht. unfold toc_chapter. rewrite Ht.
  destruct (select_one (by_type_attr "a" "href") title_el) as [link|] eqn:El.
  - destruct (selected_attr_present "a" "href" title_el El) as [href Hh].
    unfold getitem. rewrite Hh. unfold bind.
    eexists. exists href. split; [reflexivity|]. simpl. auto.
  - unfold bind. eexists. exists (lit "sisallys").
    split; [reflexivity|]. simpl. auto.
Qed.

Lemma toc_chapter_total (chapter : node) :
  exists entries, toc_chapter chapter = Ok entries.
Proof.
  destruct (select_one (by_class "toc-chapter-title") chapter) as [title_el|] eqn:E.
  - destruct (toc_chapter_titled chapter E) as (r & url & H & _). eauto.
  - unfold toc_chapter. rewrite E. eauto.
Qed.

(** C7, as the extractor has it.  For every chapter with a title element
    the extractor emits one record.  Its url is the target of the link
    inside the title if there is a link and the target starts with "http",
    which every absolute http or https URL does, and the literal path
    "sisallys" otherwise; a target that does not start with "http" is
    never emitted. *)
Theorem toc_chapter_url (soup chapter title_el : node) :
  In chapter (select (by_class "toc-chapter") soup) ->
  select_one (by_class "toc-chapter-title") chapter = Some title_el ->
  exists entries r,
    parse_sisallys soup = Ok entries
    /\ toc_chapter chapter = Ok [r]
    /\ In r entries
    /\ match select_one (by_type_attr "a" "href") title_el with
       | None => e_url r = lit "sisallys"
       | Some link =>
           exists href,
             get link (lit "href") = Some href
             /\ e_url r = (if startswith (lit "http") href
                           then href else lit "sisallys")
             /\ (fully_qualified_external href = true -> e_url r = href)
       end.
Proof.
  intros Hin Ht.
  destruct (toc_chapter_titled chapter Ht) as (r & url & Hr & _ & Hurl & Hlink).
  exists (flat_map (appended toc_chapter) (select (by_class "toc-chapter") soup)), r.
  split; [|split; [exact Hr|split]].
  - unfold parse_sisallys. apply for_each_ok. intros x _. apply toc_chapter_total.
  - apply in_flat_map. exists chapter. split; [exact Hin|].
    unfold appended. rewrite Hr. now left.
  - destruct (select_one (by_type_attr "a" "href") title_el) as [link|].
    + exists url. split; [exact Hlink|]. split; [exact Hurl|].
      intros Hfq. rewrite Hurl.
      now rewrite (fully_qualified_startswith_http _ Hfq).
    + rewrite Hurl, Hlink. reflexivity.
Qed.

Lemma toc_chapter_url_witness :
  exists entries r,
    parse_sisallys (document [toc_chapter_external; toc_chapter_internal]) = Ok entries
    /\ toc_chapter toc_chapter_internal = Ok [r]
    /\ In r entries
    /\ exists href,
         href = lit "luku1.html" /\ e_url r = lit "sisallys".
Proof.
  destruct (toc_chapter_url (document [toc_chapter_external; toc_chapter_internal])
              toc_chapter_internal
              (title_el := el "div" ["toc-chapter-title"] []
                              [el "a" [] [("href", "luku1.html")] [txt "Luku 1"]]))
    as (entries & r & H1 & H2 & H3 & H4).
  - right; left; reflexivity.
  - reflexivity.
  - exists entries, r. repeat (split; [assumption|]).
    change (exists href,
               Some (lit "luku1.html") = Some href
               /\ e_url r = (if startswith (lit "http") href
                             then href else lit "sisallys")
               /\ (fully_qualified_external href = true -> e_url r = href)) in H4.
    destruct H4 as (href & Hh & Hu & _).
    exists href. inversion Hh; subst href. split; [reflexivity | exact Hu].
Defined.

(** C7 speaks of fully-qualified external links.  The internal
    link "http-ja-https.html" is a relative reference, not an absolute
    URL, yet it passes the test [startswith("http")] and is emitted as the
    record's url instead of the page-level path. *)
Lemma toc_internal_link_counterexample :
  exists title_el link href r,
    select_one (by_class "toc-chapter-title") toc_chapter_http_file = Some title_el
    /\ select_one (by_type_attr "a" "href") title_el = Some link
    /\ get link (lit "href") = Some href
    /\ href = lit "http-ja-https.html"
    /\ fully_qualified_external href = false
    /\ toc_chapter toc_chapter_http_file = Ok [r]
    /\ e_url r = href
    /\ e_url r <> lit "sisallys".
Proof.
  do 4 eexists.
  split; [reflexivity|]. split; [reflexivity|]. split; [reflexivity|].
  split; [reflexivity|]. split; [reflexivity|].
  split; [vm_compute; reflexivity|]. split; [reflexivity|].
  intros H; vm_compute in H; discriminate H.
Qed.

(** ** Identifiers of the records *)

Section Prefixes.

(** Two prefixes of one string: one is a prefix of the other. *)
Lemma startswith_comparable (p q s : str) :
  startswith p s = true -> startswith q s = true ->
  startswith p q = true \/ startswith q p = true.
Proof.
  revert q s; induction p as [|a p IH]; intros q s; [now left|].
  destruct q as [|b q]; [now right|].
  destruct s as [|c s]; simpl; [discriminate|].
  intros H1 H2.
  apply andb_true_iff in H1. destruct H1 as [E1 Hp].
  apply andb_true_iff in H2. destruct H2 as [E2 Hq].
  apply N.eqb_eq in E1, E2. subst a b.
  rewrite N.eqb_refl. simpl. eauto.
Qed.

Lemma NoDup_map_prefix (p : str) (l : list str) :
  NoDup l -> NoDup (map (app p) l).
Proof.
  intros H. apply NoDup_map_NoDup_ForallPairs; [|exact H].
  intros x y _ _ E. now apply app_inv_head in E.
Qed.

End Prefixes.

Lemma startswith_tag (type_id rest : str) :
  startswith (type_id ++ lit "-") (type_id ++ lit "-" ++ rest) = true.
Proof. rewrite (app_assoc type_id). apply startswith_app. Qed.

Lemma digits_inj (d d' : Decimal.uint) : digits d = digits d' -> d = d'.
Proof.
  revert d'; induction d; intros d'; destruct d'; simpl; intros H;
    try discriminate H; try reflexivity;
    inversion H as [H']; f_equal; auto.
Qed.

Lemma str_of_nat_inj (n m : nat) : str_of_nat n = str_of_nat m -> n = m.
Proof.
  unfold str_of_nat. intros H. apply digits_inj in H.
  now apply Unsigned.to_uint_inj.
Qed.

Lemma enumerate_from_fst (A : Type) (l : list A) (i : nat) :
  map fst (enumerate_from i l) = seq i (List.length l).
Proof.
  revert i; induction l as [|x l IH]; intros i; simpl; [reflexivity|].
  now rewrite IH.
Qed.

(** The identifiers of the section records are the type tag, "-s" and
    the index of the section. *)
Lemma essay_sections_ids (page_url type_id type_label : str) (numbered : list (nat * node)) :
  map e_id (flat_map (appended (essay_section page_url type_id type_label)) numbered)
  = map (fun i => type_id ++ lit "-s" ++ str_of_nat i) (map fst numbered).
Proof.
  induction numbered as [|x l IH]; simpl; [reflexivity|].
  destruct (essay_section_total page_url type_id type_label x) as (r & E & Hid & _).
  unfold appended at 1. rewrite E. simpl. now rewrite Hid, IH.
Qed.

(** The identifiers of an essay page are distinct and start with the type
    tag and a hyphen. *)
Lemma parse_essay_ids (soup : node) (page_url type_id type_label : str) (entries : list entry) :
  parse_essay soup page_url type_id type_label = Ok entries ->
  NoDup (map e_id entries)
  /\ Forall (fun s => startswith (type_id ++ lit "-") s = true) (map e_id entries)
  /\ Forall (fun e => e_type e = type_id) entries.
Proof.
  unfold parse_essay.
  destruct (select_one (by_class "essay-body") soup) as [body|].
  2:{ intros H; inversion H; subst. repeat split; constructor. }
  destruct (select (by_type "section") body) as [|s sections].
  - intros H; inversion H; subst; simpl. repeat split.
    + constructor; [intros []|constructor].
    + constructor; [|constructor].
      exact (startswith_tag type_id (lit "full")).
    + constructor; [reflexivity|constructor].
  - rewrite for_each_ok.
    2:{ intros x _. destruct (essay_section_total page_url type_id type_label x)
          as (r & E & _). eauto. }
    intros H; injection H as <-.
    change (appended (essay_section page_url type_id type_label) (0%nat, s)
            ++ flat_map (appended (essay_section page_url type_id type_label))
                        (enumerate_from 1 sections))
      with (flat_map (appended (essay_section page_url type_id type_label))
                     (enumerate (s :: sections))).
    rewrite essay_sections_ids. unfold enumerate. rewrite enumerate_from_fst.
    repeat split.
    + apply NoDup_map_NoDup_ForallPairs; [|apply seq_NoDup].
      intros i j _ _ E. apply app_inv_head in E. apply app_inv_head in E.
      now apply str_of_nat_inj.
    + apply Forall_forall. intros x Hx. apply in_map_iff in Hx.
      destruct Hx as [i [<- _]].
      exact (startswith_tag type_id (lit "s" ++ str_of_nat i)).
    + apply Forall_forall. intros e He. apply in_flat_map in He.
      destruct He as [x [_ He]].
      destruct (essay_section_total page_url type_id type_label x) as (r & E & _ & Ht).
      unfold appended in He. rewrite E in He. destruct He as [<-|[]]. exact Ht.
Qed.

(** The identifiers of the card records are the prefix and the DOM
    identifiers of the cards. *)
Lemma parse_qa_ids (soup : node) :
  map e_id (parse_qa soup) = map (app (lit "qa-")) (dom_ids "qa-card" (Some soup)).
Proof. unfold parse_qa, dom_ids. rewrite !map_map. reflexivity. Qed.

Lemma parse_arg_cards_ids (soup : node) (page_url type_id type_label : str) :
  map e_id (parse_arg_cards soup page_url type_id type_label)
  = map (app (type_id ++ lit "-")) (dom_ids "arg-card" (Some soup)).
Proof.
  unfold parse_arg_cards, dom_ids. rewrite !map_map.
  apply map_ext. intros card. simpl. now rewrite <- app_assoc.
Qed.

Lemma parse_terms_ids (lower : str -> str) (soup : node) :
  map e_id (parse_terms lower soup)
  = map (app (lit "term-")) (term_slugs lower (Some soup)).
Proof.
  unfold parse_terms, term_slugs.
  induction (select (by_class "term") soup) as [|term l IH]; [reflexivity|].
  cbn [flat_map]. rewrite !map_app, IH. f_equal.
  unfold term_entry. destruct (select_one (by_type "h3") term); reflexivity.
Qed.

(** ** The driver *)

Ltac run_driver :=
  cbv beta iota zeta delta
    [main io_bind io_ret lift load_soup print write_text st_size
     pages output_path output_file stdout
     report index aggregate stage bind unwrap stage_line].

(** A run in a world where nothing fails around it does not raise
    either.  It leaves the pages alone, replaces the output
    file by the UTF-8 text of the serialized index, and prints its
    report. *)
Lemma main_run (lower : str -> str) (w : world) :
  aggregate lower (pages w) = Ok (index lower (pages w))
  /\ main lower w =
       (Ok tt,
        {| pages := pages w;
           output_path := output_path w;
           output_file := Some (utf8_encode (dumps (index lower (pages w))));
           stdout := stdout w ++ report lower (pages w) (output_path w) |}).
Proof.
  destruct w as [site path file out].
  run_driver.
  destruct (site (lit "qa.html")) as [qa|];
  destruct (site (lit "argumentit.html")) as [arg|];
  destruct (site (lit "kielen-valta.html")) as [kieli|];
  (destruct (site (lit "kannustinketju.html")) as [kannustin|];
   [ destruct (parse_essay_total kannustin (lit "kannustinketju") (lit "kannustin")
                 (lit "Kannustinketju")) as [sections ->] | ]);
  destruct (site (lit "sanakirja.html")) as [termi|];
  run_driver;
  (split; [reflexivity|]);
  cbn [app]; rewrite ?app_nil_r, <- ?app_assoc; reflexivity.
Qed.

(** ** Uniqueness of identifiers *)

Section Uniqueness.

Variable lower : str -> str.

Lemma starts_map_app (p : str) (l : list str) : starts p (map (app p) l).
Proof.
  apply Forall_forall. intros s Hs. apply in_map_iff in Hs.
  destruct Hs as [x [<- _]]. apply startswith_app.
Qed.

(** Lists of strings with distinct entries and incomparable prefixes
    concatenate without duplicates. *)
Lemma NoDup_app_prefixed (p : str) (l1 l2 : list str) :
  NoDup l1 -> NoDup l2 -> starts p l1 ->
  (forall s, In s l2 -> startswith p s = false) ->
  NoDup (l1 ++ l2).
Proof.
  intros H1 H2 Hp Hq. apply NoDup_app; auto.
  intros s In1 In2. unfold starts in Hp. rewrite Forall_forall in Hp.
  specialize (Hp s In1). specialize (Hq s In2). congruence.
Qed.

Lemma starts_excludes (p q : str) (l : list str) (s : str) :
  startswith p q = false -> startswith q p = false ->
  starts q l -> In s l -> startswith p s = false.
Proof.
  intros Hpq Hqp Hl Hin. unfold starts in Hl. rewrite Forall_forall in Hl.
  destruct (startswith p s) eqn:E; [|reflexivity].
  destruct (startswith_comparable p q s E (Hl s Hin)); congruence.
Qed.

Lemma stage_ids_qa (page : option node) :
  map e_id (unwrap (stage page (fun soup => Ok (parse_qa soup))))
  = map (app (lit "qa-")) (dom_ids "qa-card" page).
Proof. destruct page; [apply parse_qa_ids | reflexivity]. Qed.

Lemma stage_ids_arg (page : option node) (page_url type_id type_label : str) :
  map e_id (unwrap (stage page (fun soup =>
                      Ok (parse_arg_cards soup page_url type_id type_label))))
  = map (app (type_id ++ lit "-")) (dom_ids "arg-card" page).
Proof. destruct page; [apply parse_arg_cards_ids | reflexivity]. Qed.

Lemma stage_ids_terms (page : option node) :
  map e_id (unwrap (stage page (fun soup => Ok (parse_terms lower soup))))
  = map (app (lit "term-")) (term_slugs lower page).
Proof. destruct page; [apply parse_terms_ids | reflexivity]. Qed.

Lemma stage_ids_essay (page : option node) (page_url type_id type_label : str) :
  let entries :=
    unwrap (stage page (fun soup => parse_essay soup page_url type_id type_label)) in
  NoDup (map e_id entries) /\ starts (type_id ++ lit "-") (map e_id entries).
Proof.
  destruct page as [soup|]; simpl.
  - destruct (parse_essay_total soup page_url type_id type_label) as [entries E].
    rewrite E. simpl. destruct (parse_essay_ids _ _ _ _ E) as (H1 & H2 & _). auto.
  - split; constructor.
Qed.

(** The index is the concatenation of what the five stages extract. *)
Lemma index_stages (site : str -> option node) :
  index lower site =
    unwrap (stage (site (lit "qa.html")) (fun soup => Ok (parse_qa soup)))
    ++ unwrap (stage (site (lit "argumentit.html"))
                 (fun soup => Ok (parse_arg_cards soup (lit "argumentit") (lit "arg")
                                                  (lit "Systeemivirhe"))))
    ++ unwrap (stage (site (lit "kielen-valta.html"))
                 (fun soup => Ok (parse_arg_cards soup (lit "kielen-valta") (lit "kieli")
                                                  (lit "Kielen valta"))))
    ++ unwrap (stage (site (lit "kannustinketju.html"))
                 (fun soup => parse_essay soup (lit "kannustinketju") (lit "kannustin")
                                          (lit "Kannustinketju")))
    ++ unwrap (stage (site (lit "sanakirja.html"))
                 (fun soup => Ok (parse_terms lower soup))).
Proof.
  unfold index, aggregate.
  destruct (site (lit "qa.html")); destruct (site (lit "argumentit.html"));
    destruct (site (lit "kielen-valta.html"));
    (destruct (site (lit "kannustinketju.html")) as [kannustin|];
     [ unfold stage;
       destruct (parse_essay_total kannustin (lit "kannustinketju") (lit "kannustin")
                   (lit "Kannustinketju")) as [sections ->] | ]);
    destruct (site (lit "sanakirja.html")); reflexivity.
Qed.

Ltac excluded S :=
  match goal with
  | Hs : In _ _ |- _ =>
      eapply starts_excludes; [ | | exact S | exact Hs]; reflexivity
  end.

Lemma index_ids_unique (site : str -> option node) :
  NoDup (dom_ids "qa-card" (site (lit "qa.html"))) ->
  NoDup (dom_ids "arg-card" (site (lit "argumentit.html"))) ->
  NoDup (dom_ids "arg-card" (site (lit "kielen-valta.html"))) ->
  NoDup (term_slugs lower (site (lit "sanakirja.html"))) ->
  NoDup (map e_id (index lower site)).
Proof.
  intros Hqa Harg Hkieli Hterm.
  rewrite index_stages, !map_app.
  rewrite stage_ids_qa, !stage_ids_arg, stage_ids_terms.
  destruct (stage_ids_essay (site (lit "kannustinketju.html")) (lit "kannustinketju")
              (lit "kannustin") (lit "Kannustinketju")) as [Hessay Hes].
  cbv zeta in Hessay, Hes.
  set (essay_ids := map e_id _) in *.
  pose proof (starts_map_app (lit "qa-") (dom_ids "qa-card" (site (lit "qa.html")))) as Sqa.
  pose proof (starts_map_app (lit "arg" ++ lit "-")
                (dom_ids "arg-card" (site (lit "argumentit.html")))) as Sarg.
  pose proof (starts_map_app (lit "kieli" ++ lit "-")
                (dom_ids "arg-card" (site (lit "kielen-valta.html")))) as Skieli.
  pose proof (starts_map_app (lit "term-")
                (term_slugs lower (site (lit "sanakirja.html")))) as Sterm.
  apply NoDup_app_prefixed with (p := lit "qa-");
    [now apply NoDup_map_prefix | | exact Sqa | ].
  - apply NoDup_app_prefixed with (p := lit "arg" ++ lit "-");
      [now apply NoDup_map_prefix | | exact Sarg | ].
    + apply NoDup_app_prefixed with (p := lit "kieli" ++ lit "-");
        [now apply NoDup_map_prefix | | exact Skieli | ].
      * apply NoDup_app_prefixed with (p := lit "kannustin" ++ lit "-");
          [exact Hessay | now apply NoDup_map_prefix | exact Hes | ].
        intros s Hs. excluded Sterm.
      * intros s Hs. apply in_app_or in Hs. destruct Hs as [Hs|Hs].
        -- excluded Hes.
        -- excluded Sterm.
    + intros s Hs. apply in_app_or in Hs. destruct Hs as [Hs|Hs];
        [|apply in_app_or in Hs; destruct Hs as [Hs|Hs]].
      * excluded Skieli.
      * excluded Hes.
      * excluded Sterm.
  - intros s Hs. apply in_app_or in Hs. destruct Hs as [Hs|Hs];
      [|apply in_app_or in Hs; destruct Hs as [Hs|Hs];
        [|apply in_app_or in Hs; destruct Hs as [Hs|Hs]]].
    + excluded Sarg.
    + excluded Skieli.
    + excluded Hes.
    + excluded Sterm.
Qed.

End Uniqueness.

Ltac distinct :=
  vm_compute;
  repeat (constructor;
          [ let H := fresh in
            intros H; repeat (destruct H as [H|H]; [discriminate H|]); exact H
          | ]);
  try constructor.

(** C1, as the driver has it.  When the Q&A cards and the argument cards
    of each page carry distinct DOM identifiers (a missing [id] counting
    as the empty one) and the glossary terms that have a heading have
    distinct slugs (the heading text in lower case, spaces replaced by
    hyphens), no two records of the array a run writes have the same
    [id].  The glossary extractor makes its identifiers from the heading
    text, not from DOM identifiers. *)
Theorem record_ids_unique (lower : str -> str) (w : world) :
  NoDup (dom_ids "qa-card" (pages w (lit "qa.html"))) ->
  NoDup (dom_ids "arg-card" (pages w (lit "argumentit.html"))) ->
  NoDup (dom_ids "arg-card" (pages w (lit "kielen-valta.html"))) ->
  NoDup (term_slugs lower (pages w (lit "sanakirja.html"))) ->
  exists entries,
    aggregate lower (pages w) = Ok entries
    /\ output_file (snd (main lower w)) = Some (utf8_encode (dumps entries))
    /\ NoDup (map e_id entries).
Proof.
  intros Hqa Harg Hkieli Hterm.
  destruct (main_run lower w) as [Hagg Hmain].
  exists (index lower (pages w)). split; [exact Hagg|]. split.
  - rewrite Hmain. reflexivity.
  - now apply index_ids_unique.
Qed.

Lemma record_ids_unique_witness :
  exists entries,
    aggregate ascii_lower site_sample = Ok entries
    /\ output_file (snd (main ascii_lower (world_of site_sample)))
       = Some (utf8_encode (dumps entries))
    /\ NoDup (map e_id entries).
Proof.
  apply (record_ids_unique ascii_lower (world_of site_sample)); distinct.
Defined.

(** C1 asks for distinct DOM identifiers only.  In a glossary with two
    terms of the same heading the DOM identifiers [t1] and [t2] are
    distinct, and both records get the identifier made of the heading,
    whatever [str.lower] does. *)
Lemma duplicate_term_ids_counterexample :
  distinct_dom_ids site_homonyms
  /\ dom_ids "term" (site_homonyms (lit "sanakirja.html")) = [lit "t1"; lit "t2"]
  /\ forall lower,
       exists r1 r2,
         aggregate lower site_homonyms = Ok [r1; r2]
         /\ output_file (snd (main lower (world_of site_homonyms)))
            = Some (utf8_encode (dumps [r1; r2]))
         /\ e_id r1 = e_id r2
         /\ ~ NoDup (map e_id [r1; r2]).
Proof.
  split; [repeat split; distinct|]. split; [reflexivity|].
  intros lower.
  destruct (main_run lower (world_of site_homonyms)) as [Hagg Hmain].
  assert (E : exists r1 r2,
             index lower site_homonyms = [r1; r2] /\ e_id r1 = e_id r2).
  { eexists. eexists. split; reflexivity. }
  destruct E as (r1 & r2 & E & Hid).
  exists r1, r2. simpl pages in Hagg, Hmain. rewrite E in Hagg, Hmain.
  split; [exact Hagg|]. split; [rewrite Hmain; reflexivity|].
  split; [exact Hid|].
  simpl. rewrite Hid. intros H. inversion H as [|x l Hin _]; subst.
  apply Hin. now left.
Qed.

(** ** Runs of the driver *)




(** The type tag of every record of the index is the tag of a stage whose
    page exists. *)
Lemma index_types (lower : str -> str) (site : str -> option node) (e : entry) :
  In e (index lower site) ->
  exists filename tag,
    In (filename, tag) stages /\ e_type e = lit tag /\ site (lit filename) <> None.
Proof.
  rewrite index_stages. intros H.
  repeat (apply in_app_or in H; destruct H as [H|H]).
  - exists "qa.html", "qa".
    destruct (site (lit "qa.html")) as [soup|]; [|destruct H].
    simpl in H. unfold parse_qa in H. apply in_map_iff in H.
    destruct H as [card [<- _]]. simpl; intuition discriminate.
  - exists "argumentit.html", "arg".
    destruct (site (lit "argumentit.html")) as [soup|]; [|destruct H].
    simpl in H. unfold parse_arg_cards in H. apply in_map_iff in H.
    destruct H as [card [<- _]]. simpl; intuition discriminate.
  - exists "kielen-valta.html", "kieli".
    destruct (site (lit "kielen-valta.html")) as [soup|]; [|destruct H].
    simpl in H. unfold parse_arg_cards in H. apply in_map_iff in H.
    destruct H as [card [<- _]]. simpl; intuition discriminate.
  - exists "kannustinketju.html", "kannustin".
    destruct (site (lit "kannustinketju.html")) as [soup|]; [|destruct H].
    unfold stage in H.
    destruct (parse_essay_total soup (lit "kannustinketju") (lit "kannustin")
                (lit "Kannustinketju")) as [entries E].
    rewrite E in H. simpl in H.
    destruct (parse_essay_ids _ _ _ _ E) as (_ & _ & Ht).
    rewrite Forall_forall in Ht. rewrite (Ht e H).
    simpl; intuition discriminate.
  - exists "sanakirja.html", "termi".
    destruct (site (lit "sanakirja.html")) as [soup|]; [|destruct H].
    simpl in H. unfold parse_terms in H. apply in_flat_map in H.
    destruct H as [term [_ H]]. unfold term_entry in H.
    destruct (select_one (by_type "h3") term); [|destruct H].
    destruct H as [<-|[]]. simpl; intuition discriminate.
Qed.

(** ** The serializer *)

Section Sorting.

Lemma str_leb_total (a b : str) : str_leb a b = false -> str_leb b a = true.
Proof.
  revert b; induction a as [|x a IH]; intros [|y b]; simpl; try discriminate; auto.
  rewrite orb_false_iff, andb_false_iff. intros [Hlt H].
  apply N.ltb_ge in Hlt.
  destruct (N.ltb_spec y x) as [Hyx|Hxy]; [reflexivity|].
  assert (E : x = y) by lia. subst y.
  rewrite N.eqb_refl in *. simpl. destruct H as [H|H]; [discriminate|auto].
Qed.

Lemma keys_ascending_cons (kv : str * str) (l : list (str * str)) :
  keys_ascending (kv :: l) = above (fst kv) l && keys_ascending l.
Proof. destruct l; reflexivity. Qed.

Lemma insert_item_above (k : str) (kv : str * str) (l : list (str * str)) :
  str_leb k (fst kv) = true -> above k l = true -> above k (insert_item kv l) = true.
Proof.
  intros Hk Hl. destruct l as [|kv' l]; simpl; [exact Hk|].
  destruct (str_leb (fst kv) (fst kv')); simpl; assumption.
Qed.

Lemma insert_item_ascending (kv : str * str) (l : list (str * str)) :
  keys_ascending l = true -> keys_ascending (insert_item kv l) = true.
Proof.
  induction l as [|kv' l IH]; intros H; [reflexivity|].
  rewrite keys_ascending_cons in H. apply andb_true_iff in H. destruct H as [Ha Hl].
  cbn [insert_item]. destruct (str_leb (fst kv) (fst kv')) eqn:E.
  - rewrite keys_ascending_cons. cbn [above]. rewrite E. cbn [andb].
    rewrite keys_ascending_cons, Ha, Hl. reflexivity.
  - rewrite keys_ascending_cons, (IH Hl), andb_true_r.
    apply insert_item_above; [now apply str_leb_total | exact Ha].
Qed.

(** [sorted] returns the items in ascending order of their keys. *)
Lemma sorted_items_ascending (l : list (str * str)) :
  keys_ascending (sorted_items l) = true.
Proof.
  induction l as [|kv l IH]; [reflexivity|].
  cbn [sorted_items]. now apply insert_item_ascending.
Qed.

Lemma insert_item_perm (kv : str * str) (l : list (str * str)) :
  Permutation (kv :: l) (insert_item kv l).
Proof.
  induction l as [|kv' l IH]; simpl; [apply Permutation_refl|].
  destruct (str_leb (fst kv) (fst kv')); [apply Permutation_refl|].
  eapply Permutation_trans; [apply perm_swap|]. now apply perm_skip.
Qed.

(** ... and returns all of them, each once. *)
Lemma sorted_items_perm (l : list (str * str)) : Permutation l (sorted_items l).
Proof.
  induction l as [|kv l IH]; simpl; [constructor|].
  eapply Permutation_trans; [apply perm_skip, IH | apply insert_item_perm].
Qed.

End Sorting.

(** Characters from U+0080 on, and every character from U+0020 on other
    than the quote and the backslash, are written as they are. *)
Lemma escape_char_literal (c : char) :
  32 <= c -> c <> QUOTE -> c <> BACKSLASH -> escape_char c = [c].
Proof.
  intros H Hq Hb. unfold escape_char, QUOTE, BACKSLASH in *.
  repeat match goal with
         | |- context [?a =? ?b] => destruct (N.eqb_spec a b); [lia|]
         end.
  destruct (N.ltb_spec c 32); [lia | reflexivity].
Qed.

(** One record, serialized at the nesting level of the array's items:
    the seven members in ascending key order, each on a line of its own
    indented by two spaces, between braces, the closing one indented by
    one space. *)
Lemma encode_entry_layout (e : entry) :
  encode_dict 1 (items e) =
    lit "{" ++ [NEWLINE; SPACE; SPACE]
    ++ join (lit "," ++ [NEWLINE; SPACE; SPACE])
            [ member "content" (e_content e);
              member "excerpt" (e_excerpt e);
              member "id" (e_id e);
              member "title" (e_title e);
              member "type" (e_type e);
              member "type_label" (e_type_label e);
              member "url" (e_url e) ]
    ++ [NEWLINE; SPACE] ++ lit "}".
Proof. reflexivity. Qed.

(* ================================================================== *)
(** * Further properties of the script                                 *)
(* ================================================================== *)

(** ** [truncate] *)

Lemma before_last_space_none_inv (s : str) :
  before_last_space s = None -> no_space s = true.
Proof.
  induction s as [|c s IH]; simpl; [reflexivity|].
  destruct (before_last_space s) as [q|]; [discriminate|].
  destruct (c =? SPACE); [discriminate|]. intros _. now rewrite IH.
Qed.

(** What [rsplit] finds: the text before a space after which no space
    follows. *)
Lemma before_last_space_some (s p : str) :
  before_last_space s = Some p ->
  exists tail, s = p ++ SPACE :: tail /\ no_space tail = true.
Proof.
  revert p; induction s as [|c s IH]; simpl; intros p H; [discriminate|].
  destruct (before_last_space s) as [q|] eqn:E.
  - inversion H; subst. destruct (IH q eq_refl) as (tail & -> & Ht).
    now exists tail.
  - destruct (N.eqb_spec c SPACE) as [->|]; [|discriminate].
    inversion H; subst. exists s. split; [reflexivity|].
    now apply before_last_space_none_inv.
Qed.

(** X1. [truncate(s, max_len)] for any integer bound.  The default is
    300, and for a bound that is not negative the result is that of the
    slice [s[:max_len]] of the first [max_len] characters.  A string
    within the bound comes back unchanged; a longer one, and every string
    under a negative bound, is cut to a prefix followed by the ellipsis.
    The prefix is the whole slice [s[:max_len]] when the slice has no
    space, and otherwise ends just before the last space of the slice.
    It has at most [max_len] characters when the bound is not negative;
    under a negative bound the slice drops the last [-max_len] characters
    of the string, and the prefix can be longer than the bound. *)
Theorem truncate_int_cut (s : str) (max_len : Z) :
  truncate s = truncate_int s 300
  /\ ((0 <= max_len)%Z ->
      truncate_int s max_len = truncate_to (Z.to_nat max_len) s
      /\ slice_to max_len s = firstn (Z.to_nat max_len) s)
  /\ ((max_len < 0)%Z ->
      slice_to max_len s = firstn (List.length s - Z.to_nat (- max_len)) s)
  /\ ((Z.of_nat (List.length s) <= max_len)%Z -> truncate_int s max_len = s)
  /\ ((max_len < Z.of_nat (List.length s))%Z ->
      exists kept,
        truncate_int s max_len = kept ++ [ELLIPSIS]
        /\ (exists rest, s = kept ++ rest)
        /\ (List.length kept <= List.length (slice_to max_len s))%nat
        /\ ((0 <= max_len)%Z -> (Z.of_nat (List.length kept) <= max_len)%Z)
        /\ (no_space (slice_to max_len s) = true -> kept = slice_to max_len s)
        /\ (no_space (slice_to max_len s) = false ->
            exists tail,
              slice_to max_len s = kept ++ SPACE :: tail
              /\ no_space tail = true)).
Proof.
  assert (Hnonneg : forall m, (0 <= m)%Z ->
            truncate_int s m = truncate_to (Z.to_nat m) s
            /\ slice_to m s = firstn (Z.to_nat m) s).
  { intros m Hm. unfold truncate_int, truncate_to, slice_to.
    apply Z.leb_le in Hm. rewrite Hm. apply Z.leb_le in Hm. split; [|reflexivity].
    destruct (Z.leb_spec (Z.of_nat (List.length s)) m) as [H|H];
      destruct (Nat.leb_spec (List.length s) (Z.to_nat m)) as [H'|H'];
      try reflexivity; lia. }
  split.
  { unfold truncate. now rewrite (proj1 (Hnonneg 300%Z ltac:(lia))). }
  split; [apply Hnonneg|]. split.
  { intros Hneg. unfold slice_to. apply Z.leb_gt in Hneg. now rewrite Hneg. }
  split.
  { intros H. unfold truncate_int. apply Z.leb_le in H. now rewrite H. }
  intros H. unfold truncate_int.
  apply Z.leb_gt in H. rewrite H. apply Z.leb_gt in H.
  assert (Hslice : exists n, slice_to max_len s = firstn n s
                             /\ ((0 <= max_len)%Z -> n = Z.to_nat max_len)).
  { unfold slice_to. destruct (Z.leb_spec 0 max_len) as [Hm|Hm].
    - exists (Z.to_nat max_len). auto.
    - exists (List.length s - Z.to_nat (- max_len))%nat. split; [reflexivity|lia]. }
  destruct Hslice as (n & Hslice & Hn). rewrite Hslice.
  pose proof (firstn_skipn n s) as Es.
  pose proof (firstn_le_length n s) as Hlen.
  unfold rsplit1_head.
  destruct (before_last_space (firstn n s)) as [p|] eqn:E.
  - destruct (before_last_space_some _ E) as (tail & Ef & Ht).
    pose proof (before_last_space_shorter _ E) as Hp.
    exists p. split; [reflexivity|]. split.
    { exists (SPACE :: tail ++ skipn n s). rewrite <- Es at 1. rewrite Ef.
      now rewrite <- app_assoc. }
    split; [lia|]. split.
    { intros Hm. rewrite (Hn Hm) in *. lia. }
    split.
    { intros Hns. rewrite Ef in Hns. clear - Hns. exfalso.
      induction p as [|c p IH]; simpl in Hns.
      - unfold SPACE in Hns. simpl in Hns. discriminate.
      - apply andb_true_iff in Hns. destruct Hns as [_ Hns]. auto. }
    intros _. exists tail. auto.
  - exists (firstn n s). split; [reflexivity|]. split.
    { exists (skipn n s). now rewrite Es. }
    split; [lia|]. split.
    { intros Hm. rewrite (Hn Hm) in *. lia. }
    split; [reflexivity|].
    intros Hns. apply before_last_space_none_inv in E. congruence.
Qed.

Lemma truncate_int_cut_witness :
  truncate_int (lit "abc def") (-1) = lit "abc" ++ [ELLIPSIS]
  /\ slice_to (-1) (lit "abc def") = lit "abc de"
  /\ truncate_int (lit "abc def") 7 = lit "abc def"
  /\ (exists kept,
         truncate_int (lit "abc def") 5 = kept ++ [ELLIPSIS]
         /\ (Z.of_nat (List.length kept) <= 5)%Z)
  /\ (exists kept,
         truncate_int (lit "abc def") (-1) = kept ++ [ELLIPSIS]
         /\ (exists tail,
                slice_to (-1) (lit "abc def") = kept ++ SPACE :: tail
                /\ no_space tail = true)).
Proof.
  split; [reflexivity|]. split; [|split; [|split]].
  - rewrite (proj1 (proj2 (proj2 (truncate_int_cut (lit "abc def") (-1))))
               ltac:(lia)).
    reflexivity.
  - apply (truncate_int_cut (lit "abc def") 7). simpl. lia.
  - destruct (proj2 (proj2 (proj2 (proj2 (truncate_int_cut (lit "abc def") 5))))
                ltac:(simpl; lia))
      as (kept & E & _ & _ & Hb & _).
    exists kept. split; [exact E | apply Hb; lia].
  - destruct (proj2 (proj2 (proj2 (proj2 (truncate_int_cut (lit "abc def") (-1)))))
                ltac:(simpl; lia))
      as (kept & E & _ & _ & _ & _ & Ht).
    exists kept. split; [exact E | apply Ht; reflexivity].
Defined.

(** ** [text] *)

Section TextFacts.


Lemma non_ws_lstrip (s : str) : filter non_ws (lstrip s) = filter non_ws s.
Proof.
  induction s as [|c s IH]; simpl; [reflexivity|].
  unfold non_ws at 2. destruct (isspace c) eqn:Hc; simpl; [exact IH|].
  unfold non_ws. now rewrite Hc.
Qed.

Lemma filter_rev (A : Type) (f : A -> bool) (l : list A) :
  filter f (rev l) = rev (filter f l).
Proof.
  induction l as [|x l IH]; simpl; [reflexivity|].
  rewrite filter_app, IH. simpl. destruct (f x); simpl; [reflexivity|].
  apply app_nil_r.
Qed.

Lemma non_ws_strip (s : str) : filter non_ws (strip s) = filter non_ws s.
Proof.
  unfold strip, rstrip.
  rewrite filter_rev, non_ws_lstrip, filter_rev, rev_involutive.
  apply non_ws_lstrip.
Qed.

Lemma non_ws_join_space (parts : list str) :
  filter non_ws (join [SPACE] parts) = flat_map (filter non_ws) parts.
Proof.
  induction parts as [|p [|q parts] IH]; [reflexivity| |].
  - simpl. now rewrite app_nil_r.
  - change (join [SPACE] (p :: q :: parts))
      with (p ++ [SPACE] ++ join [SPACE] (q :: parts)).
    rewrite !filter_app, IH. reflexivity.
Qed.

Lemma plain_spaces_sub_ws_run (in_run : bool) (s : str) :
  only_plain_spaces (sub_ws_run in_run s) = true.
Proof.
  revert in_run; induction s as [|c s IH]; intros in_run; simpl; [reflexivity|].
  destruct (isspace c) eqn:Hc.
  - destruct in_run; [apply IH|]. simpl. now rewrite IH.
  - simpl. unfold non_ws. rewrite Hc. simpl. apply IH.
Qed.

Lemma plain_spaces_lstrip (s : str) :
  only_plain_spaces s = true -> only_plain_spaces (lstrip s) = true.
Proof.
  induction s as [|c s IH]; simpl; [auto|].
  intros H. destruct (isspace c); [|exact H].
  apply andb_true_iff in H. now apply IH.
Qed.

Lemma plain_spaces_rev (s : str) :
  only_plain_spaces (rev s) = only_plain_spaces s.
Proof.
  unfold only_plain_spaces. induction s as [|c s IH]; simpl; [reflexivity|].
  rewrite forallb_app, IH. simpl. rewrite andb_true_r. apply andb_comm.
Qed.

Lemma plain_spaces_strip (s : str) :
  only_plain_spaces s = true -> only_plain_spaces (strip s) = true.
Proof.
  intros H. unfold strip, rstrip. rewrite plain_spaces_rev.
  apply plain_spaces_lstrip. rewrite plain_spaces_rev.
  now apply plain_spaces_lstrip.
Qed.

(** The substitution leaves a string alone when its whitespace is single
    plain spaces. *)
Lemma sub_ws_run_fixed (in_run : bool) (s : str) :
  has_ws_run s = false ->
  only_plain_spaces s = true ->
  (in_run = true -> leading_ws s = false) ->
  sub_ws_run in_run s = s.
Proof.
  revert in_run; induction s as [|c s IH]; intros in_run Hrun Hplain Hlead;
    [reflexivity|].
  rewrite has_ws_run_cons in Hrun. apply orb_false_iff in Hrun.
  destruct Hrun as [Hc Hrun].
  simpl in Hplain. apply andb_true_iff in Hplain. destruct Hplain as [Hp Hplain].
  simpl. destruct (isspace c) eqn:E.
  - destruct in_run; [simpl in Hlead; rewrite (Hlead eq_refl) in E; discriminate|].
    unfold non_ws in Hp. rewrite E in Hp. simpl in Hp.
    apply N.eqb_eq in Hp. subst c. f_equal.
    apply IH; auto.
  - f_equal. apply IH; auto. discriminate.
Qed.

End TextFacts.

(** X2. The text of a node has no whitespace character other than the
    plain space U+0020: tabs, line breaks and no-break spaces of the page
    come out as spaces.  Normalizing is idempotent: the text of a text
    node that holds the text of a node is that text again. *)
Theorem text_plain_spaces (el : option node) :
  only_plain_spaces (text el) = true
  /\ text (Some (NavigableString (text el))) = text el.
Proof.
  assert (H : only_plain_spaces (text el) = true).
  { destruct el as [el|]; [|reflexivity].
    apply plain_spaces_strip, plain_spaces_sub_ws_run. }
  split; [exact H|].
  destruct (text_clean el) as (Hrun & Hlead & Htrail).
  change (text (Some (NavigableString (text el))))
    with (strip (sub_ws (text el))).
  unfold sub_ws. rewrite sub_ws_run_fixed by (auto; discriminate).
  now apply strip_id.
Qed.



(** ** The records of the extractors *)

Section Records.

(** The anchor of a section is empty or a "#" followed by an
    identifier. *)
Lemma section_anchor_shape (heading_el : option node) :
  exists anchor,
    section_anchor heading_el = Ok anchor
    /\ (anchor = [] \/ exists v, anchor = HASH :: v).
Proof.
  unfold section_anchor.
  destruct heading_el as [h|]; [|exists []; auto].
  destruct (select_one (by_type_attr "a" "id") h) as [a|] eqn:Ea.
  - destruct (selected_attr_present "a" "id" h Ea) as [v Hv].
    unfold getitem. rewrite Hv. exists (HASH :: v). eauto.
  - unfold getitem. destruct (get h (lit "id")) as [[|c v]|]; simpl; eauto.
Qed.

(** The record of a section, field by field. *)
Lemma essay_section_record (page_url type_id type_label : str) (i : nat)
  (section : node) :
  exists anchor,
    (anchor = [] \/ exists v, anchor = HASH :: v)
    /\ essay_section page_url type_id type_label (i, section) =
         Ok [ {| e_id := type_id ++ lit "-s" ++ str_of_nat i;
                 e_title :=
                   str_or (text (select_one (by_type "h2") section))
                     (str_or (text (select_one (by_type "h3") section))
                        (lit "Osio " ++ str_of_nat (i + 1)));
                 e_content := text (Some section);
                 e_excerpt := truncate (text (Some section));
                 e_url := page_url ++ anchor;
                 e_type := type_id;
                 e_type_label := type_label |} ].
Proof.
  destruct (section_anchor_shape
              (node_or (select_one (by_type "h2") section)
                       (select_one (by_type "h3") section))) as (anchor & E & Ha).
  exists anchor. split; [exact Ha|].
  unfold essay_section. rewrite E. reflexivity.
Qed.

Variable P : entry -> Prop.

(** A property of the whole-body record and of every section record holds
    for all records of an essay page. *)
Lemma parse_essay_Forall (soup : node) (page_url type_id type_label : str)
  (entries : list entry) :
  (forall body title,
      P {| e_id := type_id ++ lit "-full";
           e_title := title;
           e_content := text (Some body);
           e_excerpt := truncate (text (Some body));
           e_url := page_url;
           e_type := type_id;
           e_type_label := type_label |}) ->
  (forall i section anchor,
      anchor = [] \/ (exists v, anchor = HASH :: v) ->
      P {| e_id := type_id ++ lit "-s" ++ str_of_nat i;
           e_title :=
             str_or (text (select_one (by_type "h2") section))
               (str_or (text (select_one (by_type "h3") section))
                  (lit "Osio " ++ str_of_nat (i + 1)));
           e_content := text (Some section);
           e_excerpt := truncate (text (Some section));
           e_url := page_url ++ anchor;
           e_type := type_id;
           e_type_label := type_label |}) ->
  parse_essay soup page_url type_id type_label = Ok entries ->
  Forall P entries.
Proof.
  intros Hfull Hsection. unfold parse_essay.
  destruct (select_one (by_class "essay-body") soup) as [body|].
  2:{ intros H; injection H as <-. constructor. }
  destruct (select (by_type "section") body) as [|s sections].
  - intros H; injection H as <-. constructor; [apply Hfull|constructor].
  - rewrite for_each_ok.
    2:{ intros [i x] _.
        destruct (essay_section_record page_url type_id type_label i x)
          as (anchor & _ & E). eauto. }
    intros H; injection H as <-.
    change (appended (essay_section page_url type_id type_label) (0%nat, s)
            ++ flat_map (appended (essay_section page_url type_id type_label))
                        (enumerate_from 1 sections))
      with (flat_map (appended (essay_section page_url type_id type_label))
                     (enumerate (s :: sections))).
    apply Forall_forall. intros e He. apply in_flat_map in He.
    destruct He as [[i x] [_ He]].
    destruct (essay_section_record page_url type_id type_label i x)
      as (anchor & Ha & E).
    unfold appended in He. rewrite E in He. destruct He as [<-|[]].
    now apply Hsection.
Qed.

(** A property of the records of each stage holds for every record of
    the index. *)
Lemma Forall_index (lower : str -> str) (site : str -> option node) :
  (forall card, P (qa_card card)) ->
  (forall card,
      P (arg_card (lit "argumentit") (lit "arg") (lit "Systeemivirhe") card)) ->
  (forall card,
      P (arg_card (lit "kielen-valta") (lit "kieli") (lit "Kielen valta") card)) ->
  (forall soup entries,
      parse_essay soup (lit "kannustinketju") (lit "kannustin")
                  (lit "Kannustinketju") = Ok entries ->
      Forall P entries) ->
  (forall term, Forall P (term_entry lower term)) ->
  Forall P (index lower site).
Proof.
  intros Hqa Harg Hkieli Hessay Hterm.
  rewrite index_stages, !Forall_app. split; [|split; [|split; [|split]]].
  - destruct (site (lit "qa.html")); [|constructor].
    simpl. unfold parse_qa. apply Forall_forall. intros e He.
    apply in_map_iff in He. destruct He as [card [<- _]]. apply Hqa.
  - destruct (site (lit "argumentit.html")); [|constructor].
    simpl. unfold parse_arg_cards. apply Forall_forall. intros e He.
    apply in_map_iff in He. destruct He as [card [<- _]]. apply Harg.
  - destruct (site (lit "kielen-valta.html")); [|constructor].
    simpl. unfold parse_arg_cards. apply Forall_forall. intros e He.
    apply in_map_iff in He. destruct He as [card [<- _]]. apply Hkieli.
  - destruct (site (lit "kannustinketju.html")) as [soup|]; [|constructor].
    unfold stage.
    destruct (parse_essay_total soup (lit "kannustinketju") (lit "kannustin")
                (lit "Kannustinketju")) as [entries E].
    rewrite E. simpl. now apply (Hessay soup).
  - destruct (site (lit "sanakirja.html")); [|constructor].
    simpl. unfold parse_terms. apply Forall_forall. intros e He.
    apply in_flat_map in He. destruct He as [term [_ He]].
    specialize (Hterm term). rewrite Forall_forall in Hterm. now apply Hterm.
Qed.

End Records.

Lemma truncate_length (s : str) : (List.length (truncate s) <= 301)%nat.
Proof.
  unfold truncate, truncate_to.
  destruct (Nat.leb_spec (List.length s) 300) as [Hle|Hgt]; [lia|].
  rewrite length_app.
  pose proof (rsplit1_head_length (firstn 300 s)) as H.
  rewrite length_firstn in H. change (List.length [ELLIPSIS]) with 1%nat. lia.
Qed.

Lemma text_is_normalized (el : option node) : normalized (text el) = true.
Proof.
  destruct (text_clean el) as (H1 & H2 & H3).
  unfold normalized. now rewrite H1, H2, H3.
Qed.

(** X5. In every record of the index the excerpt is [truncate] of the
    content: at most 301 characters, and the content itself when the
    content has at most 300. *)
Theorem index_excerpts (lower : str -> str) (site : str -> option node) :
  Forall (fun e =>
            e_excerpt e = truncate (e_content e)
            /\ (List.length (e_excerpt e) <= 301)%nat
            /\ ((List.length (e_content e) <=? 300)%nat = true ->
                e_excerpt e = e_content e))
         (index lower site).
Proof.
  assert (Hok : forall e, e_excerpt e = truncate (e_content e) ->
                        e_excerpt e = truncate (e_content e)
                        /\ (List.length (e_excerpt e) <= 301)%nat
                        /\ ((List.length (e_content e) <=? 300)%nat = true ->
                            e_excerpt e = e_content e)).
  { intros e E. split; [exact E|]. rewrite E. split; [apply truncate_length|].
    intros Hle. unfold truncate, truncate_to. now rewrite Hle. }
  apply Forall_index.
  - intros card. now apply Hok.
  - intros card. now apply Hok.
  - intros card. now apply Hok.
  - intros soup entries. apply parse_essay_Forall; intros; now apply Hok.
  - intros term. unfold term_entry.
    destruct (select_one (by_type "h3") term); constructor; [|constructor].
    now apply Hok.
Qed.

(** X6. The content of every record of the index is normalized text: no
    two whitespace characters in a row, none at either end. *)
Theorem index_contents_normalized (lower : str -> str) (site : str -> option node) :
  Forall (fun e => normalized (e_content e) = true) (index lower site).
Proof.
  apply Forall_index.
  - intros card. apply text_is_normalized.
  - intros card. simpl. unfold str_or.
    destruct (truthy _); apply text_is_normalized.
  - intros card. simpl. unfold str_or.
    destruct (truthy _); apply text_is_normalized.
  - intros soup entries. apply parse_essay_Forall; intros; apply text_is_normalized.
  - intros term. unfold term_entry.
    destruct (select_one (by_type "h3") term); constructor; [|constructor].
    simpl. destruct (select_one (by_type "p") term);
      [apply text_is_normalized | reflexivity].
Qed.

(** X7. Every record of the index has the shape of its stage: the type
    tag and label of the stage, an identifier that starts with the
    stage's prefix and a url into the stage's page.  For a card the url
    fragment is what follows the prefix in the identifier.  The glossary
    records carry the type "termi" but the identifier prefix "term-", and
    all share the one url "/sanakirja". *)
Theorem index_record_shapes (lower : str -> str) (site : str -> option node) :
  Forall (fun e =>
            (e_type e = lit "qa" /\ e_type_label e = lit "Q&A"
             /\ exists card_id,
                  e_id e = lit "qa-" ++ card_id /\ e_url e = lit "qa#" ++ card_id)
            \/ (e_type e = lit "arg" /\ e_type_label e = lit "Systeemivirhe"
                /\ exists card_id,
                     e_id e = lit "arg-" ++ card_id
                     /\ e_url e = lit "argumentit#" ++ card_id)
            \/ (e_type e = lit "kieli" /\ e_type_label e = lit "Kielen valta"
                /\ exists card_id,
                     e_id e = lit "kieli-" ++ card_id
                     /\ e_url e = lit "kielen-valta#" ++ card_id)
            \/ (e_type e = lit "kannustin" /\ e_type_label e = lit "Kannustinketju"
                /\ (exists suffix, e_id e = lit "kannustin-" ++ suffix)
                /\ (e_url e = lit "kannustinketju"
                    \/ exists anchor, e_url e = lit "kannustinketju#" ++ anchor))
            \/ (e_type e = lit "termi" /\ e_type_label e = KASITE_LABEL
                /\ (exists slug, e_id e = lit "term-" ++ slug)
                /\ e_url e = lit "/sanakirja"))
         (index lower site).
Proof.
  apply Forall_index.
  - intros card. left. repeat split.
    exists (get_default card (lit "id") []). split; reflexivity.
  - intros card. right; left. repeat split.
    exists (get_default card (lit "id") []). split; reflexivity.
  - intros card. right; right; left. repeat split.
    exists (get_default card (lit "id") []). split; reflexivity.
  - intros soup entries. apply parse_essay_Forall.
    + intros body title. right; right; right; left. repeat split.
      * exists (lit "full"). reflexivity.
      * now left.
    + intros i section anchor Ha. right; right; right; left. repeat split.
      * exists (lit "s" ++ str_of_nat i). reflexivity.
      * destruct Ha as [->|[v ->]]; [left; apply app_nil_r|].
        right. exists v. reflexivity.
  - intros term. unfold term_entry.
    destruct (select_one (by_type "h3") term); constructor; [|constructor].
    right; right; right; right. repeat split. eexists. reflexivity.
Qed.

(** The type tag and the label of a record are those of one stage. *)
Lemma index_type_and_label (lower : str -> str) (site : str -> option node) :
  Forall (fun e =>
            In (e_type e, e_type_label e)
               [ (lit "qa", lit "Q&A");
                 (lit "arg", lit "Systeemivirhe");
                 (lit "kieli", lit "Kielen valta");
                 (lit "kannustin", lit "Kannustinketju");
                 (lit "termi", KASITE_LABEL) ])
         (index lower site).
Proof.
  apply Forall_index.
  - intros card. simpl. tauto.
  - intros card. simpl. tauto.
  - intros card. simpl. tauto.
  - intros soup entries. apply parse_essay_Forall; intros; simpl; tauto.
  - intros term. unfold term_entry.
    destruct (select_one (by_type "h3") term); constructor; [|constructor].
    simpl. tauto.
Qed.

(** X8. The label of a record is a function of its type: two records of
    the index with the same type tag carry the same label. *)
Theorem index_label_of_type (lower : str -> str) (site : str -> option node)
  (e1 e2 : entry) :
  In e1 (index lower site) ->
  In e2 (index lower site) ->
  e_type e1 = e_type e2 ->
  e_type_label e1 = e_type_label e2.
Proof.
  intros H1 H2 Ht.
  pose proof (index_type_and_label lower site) as S.
  rewrite Forall_forall in S.
  pose proof (S e1 H1) as S1. pose proof (S e2 H2) as S2.
  cbn [In] in S1, S2.
  repeat (destruct S1 as [S1|S1]; [injection S1 as T1 L1|]); try destruct S1;
    repeat (destruct S2 as [S2|S2]; [injection S2 as T2 L2|]); try destruct S2;
    rewrite <- L1, <- L2; try reflexivity;
    rewrite <- T1, <- T2 in Ht; vm_compute in Ht; discriminate Ht.
Qed.

Lemma index_label_of_type_witness :
  e_type_label (nth 3 (index ascii_lower site_sample) blank_entry)
  = e_type_label (nth 4 (index ascii_lower site_sample) blank_entry).
Proof.
  apply (index_label_of_type ascii_lower site_sample).
  - apply nth_In. vm_compute. lia.
  - apply nth_In. vm_compute. lia.
  - reflexivity.
Defined.

(** ** The essay extractor, with sections *)

Lemma truthy_str_or (a b : str) : truthy (str_or a b) = truthy a || truthy b.
Proof. unfold str_or. destruct a; reflexivity. Qed.

Lemma enumerate_from_snd (A : Type) (l : list A) (i : nat) :
  map snd (enumerate_from i l) = l.
Proof.
  revert i; induction l as [|x l IH]; intros i; simpl; [reflexivity|].
  now rewrite IH.
Qed.

(** The contents of the section records are the texts of the sections,
    in order. *)
Lemma essay_sections_contents (page_url type_id type_label : str)
  (numbered : list (nat * node)) :
  map e_content (flat_map (appended (essay_section page_url type_id type_label))
                          numbered)
  = map (fun section => text (Some section)) (map snd numbered).
Proof.
  induction numbered as [|[i x] l IH]; simpl; [reflexivity|].
  destruct (essay_section_record page_url type_id type_label i x) as (anchor & _ & E).
  unfold appended at 1. rewrite E. simpl. now rewrite IH.
Qed.

(** X9. An essay body in which [select] finds sections gives one record
    per section, in document order and without raising: the identifiers
    are the type tag followed by "-s0", "-s1", ...; the content of a
    record is the text of the whole section; no title is empty (a section
    without heading text is called "Osio" and its number); every url
    starts with the page path. *)
Theorem parse_essay_sections (soup : node) (page_url type_id type_label : str)
  (essay_body : node) :
  select_one (by_class "essay-body") soup = Some essay_body ->
  select (by_type "section") essay_body <> [] ->
  exists entries,
    parse_essay soup page_url type_id type_label = Ok entries
    /\ map e_id entries
       = map (fun i => type_id ++ lit "-s" ++ str_of_nat i)
             (seq 0 (List.length (select (by_type "section") essay_body)))
    /\ map e_content entries
       = map (fun section => text (Some section))
             (select (by_type "section") essay_body)
    /\ Forall (fun e => truthy (e_title e) = true
                        /\ startswith page_url (e_url e) = true
                        /\ e_type e = type_id /\ e_type_label e = type_label)
              entries.
Proof.
  intros Hbody Hsections.
  destruct (parse_essay_total soup page_url type_id type_label) as [entries E].
  exists entries. split; [exact E|].
  assert (F : Forall (fun e => e_id e = type_id ++ lit "-full"
                               \/ (truthy (e_title e) = true
                                   /\ startswith page_url (e_url e) = true
                                   /\ e_type e = type_id
                                   /\ e_type_label e = type_label)) entries).
  { apply (parse_essay_Forall _ soup page_url type_id type_label); [| |exact E].
    - intros body title. now left.
    - intros i section anchor _. right. cbn [e_title e_url e_type e_type_label].
      rewrite !truthy_str_or, startswith_app.
      repeat split. now rewrite !orb_true_r. }
  unfold parse_essay in E. rewrite Hbody in E.
  destruct (select (by_type "section") essay_body) as [|s sections] eqn:Es;
    [contradiction|].
  rewrite for_each_ok in E.
  2:{ intros [i x] _.
      destruct (essay_section_record page_url type_id type_label i x)
        as (anchor & _ & Ex). eauto. }
  injection E as E.
  change (appended (essay_section page_url type_id type_label) (0%nat, s)
          ++ flat_map (appended (essay_section page_url type_id type_label))
                      (enumerate_from 1 sections))
    with (flat_map (appended (essay_section page_url type_id type_label))
                   (enumerate (s :: sections))) in E.
  subst entries.
  rewrite essay_sections_ids, essay_sections_contents.
  unfold enumerate. rewrite enumerate_from_fst, enumerate_from_snd.
  split; [reflexivity|]. split; [reflexivity|].
  apply Forall_forall. intros e He.
  rewrite Forall_forall in F. destruct (F e He) as [Hfull|H]; [|exact H].
  exfalso. apply in_flat_map in He. destruct He as [[i x] [_ He]].
  destruct (essay_section_record page_url type_id type_label i x) as (anchor & _ & Ex).
  unfold appended in He. rewrite Ex in He. destruct He as [<-|[]].
  simpl in Hfull. apply app_inv_head in Hfull. discriminate Hfull.
Qed.

Lemma parse_essay_sections_witness :
  exists entries,
    parse_essay essay_page_nested (lit "kannustinketju") (lit "kannustin")
                (lit "Kannustinketju") = Ok entries
    /\ map e_id entries = [lit "kannustin-s0"]
    /\ map e_content entries = [lit "Part one Some text."].
Proof.
  destruct (parse_essay_sections essay_page_nested (lit "kannustinketju")
              (lit "kannustin") (lit "Kannustinketju")
              (essay_body := essay_body_nested)) as (entries & E & Hid & Hc & _).
  - reflexivity.
  - discriminate.
  - exists entries. split; [exact E|]. split; [exact Hid | exact Hc].
Defined.

(** X10. The two extractors that subscript attributes, [a['id']] and
    [heading_el['id']] in [parse_essay] and [link["href"]] in
    [parse_sisallys], never raise [KeyError]: each subscript is taken of
    an element selected by that attribute or checked for it. *)
Theorem subscripts_never_raise (soup : node) (page_url type_id type_label : str) :
  (exists entries, parse_essay soup page_url type_id type_label = Ok entries)
  /\ (exists entries, parse_sisallys soup = Ok entries)
  /\ (forall heading_el, exists anchor, section_anchor heading_el = Ok anchor)
  /\ (forall chapter, exists entries, toc_chapter chapter = Ok entries).
Proof.
  split; [apply parse_essay_total|]. split.
  - unfold parse_sisallys. rewrite for_each_ok; [eauto|].
    intros x _. apply toc_chapter_total.
  - split; [apply section_anchor_total | apply toc_chapter_total].
Qed.

(** ** The table of contents, further *)

(** Identifier and url of what the loop body appends for a chapter. *)
Lemma toc_chapter_ids (chapter : node) :
  map e_id (appended toc_chapter chapter)
    = map (app (lit "toc-")) (toc_target chapter)
  /\ map e_url (appended toc_chapter chapter)
     = map (fun target => if startswith (lit "http") target
                          then target else lit "sisallys")
           (toc_target chapter).
Proof.
  unfold appended, toc_target.
  destruct (select_one (by_class "toc-chapter-title") chapter) as [title_el|] eqn:Et.
  - destruct (toc_chapter_titled chapter Et) as (r & url & -> & Hid & Hurl & Hl).
    destruct (select_one (by_type_attr "a" "href") title_el) as [link|].
    + unfold get_default. rewrite Hl. simpl. now rewrite Hid, Hurl.
    + subst url. simpl. now rewrite Hid, Hurl.
  - unfold toc_chapter. rewrite Et. split; reflexivity.
Qed.

Lemma parse_sisallys_ids (soup : node) :
  exists entries,
    parse_sisallys soup = Ok entries
    /\ map e_id entries = map (app (lit "toc-")) (toc_targets soup)
    /\ map e_url entries
       = map (fun target => if startswith (lit "http") target
                            then target else lit "sisallys")
             (toc_targets soup).
Proof.
  eexists. split.
  - unfold parse_sisallys. apply for_each_ok. intros x _. apply toc_chapter_total.
  - unfold toc_targets.
    induction (select (by_class "toc-chapter") soup) as [|chapter l [IH1 IH2]];
      [split; reflexivity|].
    cbn [flat_map]. rewrite !map_app, IH1, IH2.
    destruct (toc_chapter_ids chapter) as [-> ->]. split; reflexivity.
Qed.

(** X11. The table-of-contents extractor returns, without raising, one
    record for each chapter that has a title element, in document order.
    The identifier is "toc-" and the link target of the chapter
    ("toc-sisallys" without link); the url is the target only when the
    target starts with "http" and the page path otherwise.  So the
    identifiers are distinct whenever the targets are. *)
Theorem parse_sisallys_identifiers (soup : node) :
  exists entries,
    parse_sisallys soup = Ok entries
    /\ map e_id entries = map (app (lit "toc-")) (toc_targets soup)
    /\ map e_url entries
       = map (fun target =>
                if startswith (lit "http") target then target else lit "sisallys")
             (toc_targets soup)
    /\ Forall (fun e => e_url e = lit "sisallys"
                        \/ (startswith (lit "http") (e_url e) = true
                            /\ e_id e = lit "toc-" ++ e_url e))
              entries
    /\ (NoDup (toc_targets soup) -> NoDup (map e_id entries)).
Proof.
  destruct (parse_sisallys_ids soup) as (entries & E & Hid & Hurl).
  exists entries. split; [exact E|]. split; [exact Hid|].
  split; [exact Hurl|]. split.
  - apply Forall_forall. intros e He.
    unfold parse_sisallys in E. rewrite for_each_ok in E
      by (intros x _; apply toc_chapter_total).
    injection E as <-. apply in_flat_map in He. destruct He as [chapter [_ He]].
    unfold appended in He.
    destruct (select_one (by_class "toc-chapter-title") chapter) as [t|] eqn:Et.
    + destruct (toc_chapter_titled chapter Et) as (r & url & Er & Hi & Hu & _).
      rewrite Er in He. destruct He as [<-|[]].
      rewrite Hu, Hi. destruct (startswith (lit "http") url) eqn:S; auto.
    + unfold toc_chapter in He. rewrite Et in He. destruct He.
  - intros Hnd. rewrite Hid. now apply NoDup_map_prefix.
Qed.

Lemma parse_sisallys_identifiers_witness :
  exists entries,
    parse_sisallys (document [toc_chapter_external; toc_chapter_internal]) = Ok entries
    /\ map e_id entries = [lit "toc-https://example.org/luku1"; lit "toc-luku1.html"]
    /\ map e_url entries = [lit "https://example.org/luku1"; lit "sisallys"]
    /\ NoDup (map e_id entries).
Proof.
  destruct (parse_sisallys_identifiers
              (document [toc_chapter_external; toc_chapter_internal]))
    as (entries & E & Hid & Hurl & _ & Hnd).
  exists entries. split; [exact E|]. split; [exact Hid|].
  split; [exact Hurl|]. apply Hnd. distinct.
Defined.

(** X12. Chapters without link share one identifier: two chapters of a
    page that have a title element without link both give a record with
    the identifier "toc-sisallys". *)
Theorem unlinked_chapters_collide (soup : node)
  (before between after : list node) (c1 c2 t1 t2 : node) :
  select (by_class "toc-chapter") soup = before ++ c1 :: between ++ c2 :: after ->
  select_one (by_class "toc-chapter-title") c1 = Some t1 ->
  select_one (by_type_attr "a" "href") t1 = None ->
  select_one (by_class "toc-chapter-title") c2 = Some t2 ->
  select_one (by_type_attr "a" "href") t2 = None ->
  exists entries ids1 ids2 ids3,
    parse_sisallys soup = Ok entries
    /\ map e_id entries
       = ids1 ++ lit "toc-sisallys" :: ids2 ++ lit "toc-sisallys" :: ids3
    /\ ~ NoDup (map e_id entries).
Proof.
  intros Hsel Ht1 Hl1 Ht2 Hl2.
  destruct (parse_sisallys_ids soup) as (entries & E & Hid & _).
  assert (T1 : toc_target c1 = [lit "sisallys"])
    by (unfold toc_target; now rewrite Ht1, Hl1).
  assert (T2 : toc_target c2 = [lit "sisallys"])
    by (unfold toc_target; now rewrite Ht2, Hl2).
  exists entries,
    (map (app (lit "toc-")) (flat_map toc_target before)),
    (map (app (lit "toc-")) (flat_map toc_target between)),
    (map (app (lit "toc-")) (flat_map toc_target after)).
  assert (Hids : map e_id entries
                 = map (app (lit "toc-")) (flat_map toc_target before)
                   ++ lit "toc-sisallys"
                   :: map (app (lit "toc-")) (flat_map toc_target between)
                   ++ lit "toc-sisallys"
                   :: map (app (lit "toc-")) (flat_map toc_target after)).
  { rewrite Hid. unfold toc_targets. rewrite Hsel.
    rewrite flat_map_app. cbn [flat_map]. rewrite flat_map_app. cbn [flat_map].
    rewrite T1, T2. rewrite !map_app. reflexivity. }
  split; [exact E|]. split; [exact Hids|].
  rewrite Hids. intros Hnd. apply NoDup_remove_2 in Hnd. apply Hnd.
  apply in_or_app. right. apply in_or_app. right. now left.
Qed.

Lemma unlinked_chapters_collide_witness :
  exists entries,
    parse_sisallys toc_page_unlinked = Ok entries
    /\ map e_id entries = [lit "toc-sisallys"; lit "toc-sisallys"]
    /\ ~ NoDup (map e_id entries).
Proof.
  destruct (@unlinked_chapters_collide toc_page_unlinked [] [] []
              (toc_chapter_with [txt "Luku 3"])
              (toc_chapter_with [txt "Luku 4"])
              (el "div" ["toc-chapter-title"] [] [txt "Luku 3"])
              (el "div" ["toc-chapter-title"] [] [txt "Luku 4"]))
    as (entries & i1 & i2 & i3 & E & Hid & Hnd); try reflexivity.
  exists entries. split; [exact E|]. split; [|exact Hnd].
  assert (E' : parse_sisallys toc_page_unlinked = Ok entries) by exact E.
  vm_compute in E'. injection E' as <-. reflexivity.
Defined.

(** The record of a chapter that has a title element, field by field. *)
Lemma toc_chapter_record (chapter title_el : node) :
  select_one (by_class "toc-chapter-title") chapter = Some title_el ->
  exists url content,
    toc_chapter chapter =
      Ok [ {| e_id := lit "toc-" ++ url;
              e_title :=
                strip (replace
                         match select_one (by_class "toc-badge") title_el with
                         | Some badge => text (Some badge)
                         | None => []
                         end [] (text (Some title_el)));
              e_content := content;
              e_excerpt := truncate content;
              e_url := if startswith (lit "http") url then url else lit "sisallys";
              e_type := lit "toc";
              e_type_label := SISALLYS_LABEL |} ]
    /\ (select_one (by_class "toc-sections") chapter = None ->
        content = text (Some title_el)).
Proof.
  intros Ht. unfold toc_chapter. rewrite Ht.
  assert (U : exists url,
             match select_one (by_type_attr "a" "href") title_el with
             | Some link => getitem link (lit "href")
             | None => Ok (lit "sisallys")
             end = Ok url).
  { destruct (select_one (by_type_attr "a" "href") title_el) as [link|] eqn:El;
      [|eauto].
    destruct (selected_attr_present "a" "href" title_el El) as [href Hh].
    unfold getitem. rewrite Hh. eauto. }
  destruct U as [url ->]. unfold bind.
  exists url. eexists. split.
  - destruct (select_one (by_class "toc-badge") title_el); reflexivity.
  - intros ->. reflexivity.
Qed.

Lemma replace_empty_old (s : str) : replace [] [] s = s.
Proof.
  unfold replace. simpl. induction s as [|c s IH]; simpl; [reflexivity|].
  now rewrite IH.
Qed.

(** X13. A chapter whose title has no badge keeps its title text as it
    is (replacing the empty badge text changes nothing); and without a
    list of sections the content of the record is that title text. *)
Theorem toc_title_without_badge (chapter title_el : node) :
  select_one (by_class "toc-chapter-title") chapter = Some title_el ->
  select_one (by_class "toc-badge") title_el = None ->
  exists r,
    toc_chapter chapter = Ok [r]
    /\ e_title r = text (Some title_el)
    /\ (select_one (by_class "toc-sections") chapter = None ->
        e_content r = text (Some title_el)
        /\ e_excerpt r = truncate (text (Some title_el))).
Proof.
  intros Ht Hb.
  destruct (toc_chapter_record chapter Ht) as (url & content & E & Hc).
  rewrite Hb in E. eexists. split; [exact E|]. split.
  - cbn [e_title]. rewrite replace_empty_old.
    destruct (text_clean (Some title_el)) as (_ & Hl & Hr). now apply strip_id.
  - intros Hs. cbn [e_content e_excerpt]. rewrite (Hc Hs). split; reflexivity.
Qed.

Lemma toc_title_without_badge_witness :
  exists r,
    toc_chapter (el "div" ["toc-chapter"] []
                    [el "div" ["toc-chapter-title"] [] [txt " Luku  5 "]]) = Ok [r]
    /\ e_title r = lit "Luku 5"
    /\ e_content r = lit "Luku 5".
Proof.
  destruct (toc_title_without_badge
              (el "div" ["toc-chapter"] []
                  [el "div" ["toc-chapter-title"] [] [txt " Luku  5 "]])
              (title_el := el "div" ["toc-chapter-title"] [] [txt " Luku  5 "]))
    as (r & E & Ht & Hc); try reflexivity.
  exists r. split; [exact E|]. split; [exact Ht|].
  apply Hc. reflexivity.
Defined.

Section Replace.

Variables old new : str.

Lemma replace_from_skip_all (s : str) :
  replace_from old new (List.length s) s = [].
Proof. induction s as [|c s IH]; simpl; [reflexivity | exact IH]. Qed.

(** Where [old] does not occur at the first positions, the text is
    kept. *)
Lemma replace_from_no_occurrence (a rest : str) :
  occurs_within (List.length a) old (a ++ rest) = false ->
  replace_from old new 0 (a ++ rest) = a ++ replace_from old new 0 rest.
Proof.
  induction a as [|c a IH]; intros H; [reflexivity|].
  cbn [List.length occurs_within app] in H. apply orb_false_iff in H.
  destruct H as [Hs Ho].
  cbn [app replace_from]. rewrite Hs. now rewrite IH.
Qed.

End Replace.

Lemma startswith_refl (p : str) : startswith p p = true.
Proof. rewrite <- (app_nil_r p) at 2. apply startswith_app. Qed.

(** A text that is exactly [old] is replaced by [new]. *)
Lemma replace_from_match (c : char) (o new : str) :
  replace_from (c :: o) new 0 (c :: o) = new.
Proof.
  cbn [replace_from]. rewrite startswith_refl.
  cbn [List.length pred]. rewrite replace_from_skip_all. apply app_nil_r.
Qed.

(** Stripping a text that ends in one added space gives the text back,
    when the text has no whitespace at its ends. *)
Lemma strip_added_space (base : str) :
  leading_ws base = false -> trailing_ws base = false ->
  strip (base ++ [SPACE]) = base.
Proof.
  intros Hl Ht. unfold strip.
  destruct base as [|c b]; [reflexivity|].
  rewrite lstrip_id by exact Hl.
  unfold rstrip. rewrite rev_app_distr.
  change (rev [SPACE] ++ rev (c :: b)) with (SPACE :: rev (c :: b)).
  cbn [lstrip]. change (isspace SPACE) with true. cbv iota.
  unfold trailing_ws in Ht. rewrite (lstrip_id _ Ht). apply rev_involutive.
Qed.

(** X14. A badge at the end of the title is removed together with the
    space before it: when the title text is some text, a space and the
    (non-empty) badge text, and the badge text does not occur earlier in
    the title, the title of the record is the text before the badge. *)
Theorem toc_badge_removed (chapter title_el badge : node) (base : str) :
  select_one (by_class "toc-chapter-title") chapter = Some title_el ->
  select_one (by_class "toc-badge") title_el = Some badge ->
  text (Some badge) <> [] ->
  text (Some title_el) = base ++ SPACE :: text (Some badge) ->
  occurs_within (S (List.length base)) (text (Some badge)) (text (Some title_el))
    = false ->
  exists r, toc_chapter chapter = Ok [r] /\ e_title r = base.
Proof.
  intros Ht Hb Hne Etitle Hocc.
  destruct (toc_chapter_record chapter Ht) as (url & content & E & _).
  rewrite Hb in E. eexists. split; [exact E|]. cbn [e_title].
  destruct (text_clean (Some title_el)) as (Hrun & Hlead & _).
  rewrite Etitle in *.
  destruct (text (Some badge)) as [|c o] eqn:Eb; [congruence|].
  unfold replace.
  change (base ++ SPACE :: c :: o) with (base ++ [SPACE] ++ c :: o) in *.
  rewrite app_assoc in *.
  rewrite replace_from_no_occurrence
    by (rewrite length_app, Nat.add_comm; exact Hocc).
  rewrite replace_from_match, app_nil_r.
  apply strip_added_space.
  - rewrite <- app_assoc in Hlead. now apply leading_ws_prefix in Hlead.
  - unfold trailing_ws. destruct (rev base) as [|x r] eqn:Er; [reflexivity|].
    assert (Eb' : base = rev r ++ [x]).
    { rewrite <- (rev_involutive base), Er. reflexivity. }
    subst base. cbn [leading_ws].
    rewrite has_ws_run_spec in Hrun.
    specialize (Hrun (rev r) x SPACE (c :: o)).
    rewrite <- !app_assoc in Hrun. specialize (Hrun eq_refl).
    change (isspace SPACE) with true in Hrun. now rewrite andb_true_r in Hrun.
Qed.

Lemma toc_badge_removed_witness :
  exists r, toc_chapter toc_chapter_badged = Ok [r] /\ e_title r = lit "Chapter 1".
Proof.
  apply (toc_badge_removed toc_chapter_badged
           (title_el := toc_title_badged)
           (badge := el "span" ["toc-badge"] [] [txt "NEW"]));
    try reflexivity.
  discriminate.
Defined.

(** ** The glossary extractor *)

(** Replacing a single character. *)
Lemma replace_char (c : char) (new s : str) :
  replace [c] new s = flat_map (fun x => if c =? x then new else [x]) s.
Proof.
  unfold replace. induction s as [|x s IH]; [reflexivity|].
  cbn [replace_from flat_map startswith]. rewrite andb_true_r.
  destruct (c =? x); cbn [List.length pred]; now rewrite IH.
Qed.

Lemma no_space_app (a b : str) : no_space (a ++ b) = no_space a && no_space b.
Proof. apply forallb_app. Qed.

(** X15. The identifier of a glossary record contains no space, whatever
    [str.lower] returns: every space of the lower-cased heading is
    replaced by a hyphen.  The extractor returns one record for each term
    that has an [h3] heading and none for the others. *)
Theorem parse_terms_identifiers (lower : str -> str) (soup : node) :
  Forall (fun e => no_space (e_id e) = true) (parse_terms lower soup)
  /\ List.length (parse_terms lower soup)
     = List.length
         (filter (fun term => match select_one (by_type "h3") term with
                              | Some _ => true
                              | None => false
                              end)
                 (select (by_class "term") soup)).
Proof.
  unfold parse_terms. split.
  - apply Forall_forall. intros e He. apply in_flat_map in He.
    destruct He as [term [_ He]]. unfold term_entry in He.
    destruct (select_one (by_type "h3") term); [|destruct He].
    destruct He as [<-|[]]. cbn [e_id].
    rewrite no_space_app, replace_char.
    generalize (lower (text (Some n))). intros s.
    change (no_space (lit "term-")) with true. cbn [andb].
    induction s as [|x s IH]; [reflexivity|].
    cbn [flat_map]. rewrite no_space_app, IH, andb_true_r.
    destruct (N.eqb_spec SPACE x) as [<-|Hx]; [reflexivity|].
    cbn [no_space forallb]. rewrite andb_true_r.
    apply negb_true_iff. apply N.eqb_neq. congruence.
  - induction (select (by_class "term") soup) as [|term l IH]; [reflexivity|].
    cbn [flat_map filter]. rewrite length_app, IH. unfold term_entry.
    destruct (select_one (by_type "h3") term); reflexivity.
Qed.

(** ** The card extractors, further *)

Lemma strip_ends (s : str) :
  leading_ws (strip s) = false /\ trailing_ws (strip s) = false.
Proof.
  unfold strip. split; [|apply rstrip_trailing].
  destruct (rstrip_prefix (lstrip s)) as [u Eu].
  apply leading_ws_prefix with (b := u). rewrite <- Eu. apply lstrip_leading.
Qed.

Lemma strip_is_normalized (s : str) :
  has_ws_run s = false -> normalized (strip s) = true.
Proof.
  intros H. destruct (strip_clean s H) as (H1 & H2 & H3).
  unfold normalized. now rewrite H1, H2, H3.
Qed.

(** X16. The title of every Q&A record is normalized text, also after
    the permalink marker has been cut off: no whitespace run, no
    whitespace at either end. *)
Theorem parse_qa_titles_normalized (soup : node) :
  Forall (fun e => normalized (e_title e) = true) (parse_qa soup).
Proof.
  unfold parse_qa. apply Forall_forall. intros e He.
  apply in_map_iff in He. destruct He as [card [<- _]].
  unfold qa_card. cbn [e_title].
  set (q := text (select_one (by_class "qa-question-text") card)).
  destruct (startswith [HASH] q).
  - apply strip_is_normalized.
    destruct (text_clean (select_one (by_class "qa-question-text") card))
      as (Hrun & _). fold q in Hrun.
    rewrite <- (firstn_skipn 1 q) in Hrun. now apply has_ws_run_app_r in Hrun.
  - apply text_is_normalized.
Qed.

Lemma trailing_ws_last (s : str) (c : char) : trailing_ws (s ++ [c]) = isspace c.
Proof. unfold trailing_ws. rewrite rev_app_distr. reflexivity. Qed.

(** X17. The title of an argument card never ends with whitespace.  It
    starts with whitespace in exactly one case: the card has a label but
    neither number nor claim text, and the title is the label in
    parentheses after a space. *)
Theorem arg_card_title_ends (page_url type_id type_label : str) (card : node) :
  let num := text (select_one (by_class "arg-num") card) in
  let claim := text (select_one (by_class "arg-claim") card) in
  let label := text (select_one (by_class "arg-label") card) in
  let title := e_title (arg_card page_url type_id type_label card) in
  trailing_ws title = false
  /\ leading_ws title = negb (truthy num) && negb (truthy claim) && truthy label
  /\ (truthy num = false -> truthy claim = false -> truthy label = true ->
      title = lit " (" ++ label ++ lit ")").
Proof.
  intros num claim label title.
  unfold title, arg_card. cbn [e_title]. fold num claim label.
  destruct (strip_ends (num ++ [SPACE] ++ claim)) as [Hl Ht].
  assert (Hblank : truthy num = false -> truthy claim = false ->
                   strip (num ++ [SPACE] ++ claim) = []).
  { intros Hn Hc. destruct num; [|discriminate]. destruct claim; [|discriminate].
    reflexivity. }
  assert (Hfull : truthy num || truthy claim = true ->
                  truthy (strip (num ++ [SPACE] ++ claim)) = true).
  { intros H.
    assert (N : filter non_ws (strip (num ++ [SPACE] ++ claim)) <> []).
    { rewrite non_ws_strip, !filter_app.
      destruct (text_clean (select_one (by_class "arg-num") card)) as (_ & Ln & _).
      destruct (text_clean (select_one (by_class "arg-claim") card)) as (_ & Lc & _).
      fold num in Ln. fold claim in Lc.
      destruct num as [|x n].
      - destruct claim as [|y c]; [discriminate H|].
        simpl in Lc. simpl. unfold non_ws at 1. rewrite Lc. discriminate.
      - simpl in Ln. simpl. unfold non_ws at 1. rewrite Ln. discriminate. }
    destruct (strip (num ++ [SPACE] ++ claim)); [now elim N | reflexivity]. }
  destruct (truthy label) eqn:Hlab.
  - split; [|split].
    + rewrite !app_assoc. apply trailing_ws_last.
    + rewrite andb_true_r.
      destruct (truthy num || truthy claim) eqn:Hnc.
      * specialize (Hfull eq_refl).
        destruct (strip (num ++ [SPACE] ++ claim)) as [|x t]; [discriminate|].
        simpl in Hl. simpl. rewrite Hl.
        apply orb_true_iff in Hnc. destruct Hnc as [->| ->]; simpl;
          [reflexivity | now rewrite andb_false_r].
      * apply orb_false_iff in Hnc. destruct Hnc as [Hn Hc].
        rewrite (Hblank Hn Hc), Hn, Hc. reflexivity.
    + intros Hn Hc _. now rewrite (Hblank Hn Hc).
  - split; [exact Ht|]. split; [|discriminate].
    rewrite andb_false_r. exact Hl.
Qed.

Lemma arg_card_title_ends_witness :
  e_title (arg_card (lit "argumentit") (lit "arg") (lit "Systeemivirhe")
                    arg_card_label_only)
  = lit " (huomio)".
Proof.
  apply (arg_card_title_ends (lit "argumentit") (lit "arg") (lit "Systeemivirhe")
           arg_card_label_only); reflexivity.
Defined.

(** ** The driver, further *)



(** X20. The size the closing line reports is the size in bytes divided
    by 1024 and rounded to the nearest integer: it differs from the exact
    quotient by at most half a kilobyte, so that an output of less than
    512 bytes is reported as 0 KB. *)
Theorem format_kb_rounds (size : nat) :
  exists kb,
    format_kb size = str_of_nat kb
    /\ (1024 * kb <= size + 512)%nat
    /\ (size <= 1024 * kb + 512)%nat
    /\ ((size < 512)%nat -> kb = 0%nat).
Proof.
  unfold format_kb.
  pose proof (Nat.div_mod_eq size 1024) as E.
  pose proof (Nat.mod_upper_bound size 1024) as B.
  eexists. split; [reflexivity|].
  destruct (Nat.ltb_spec (size mod 1024) 512) as [H1|H1];
    [|destruct (Nat.ltb_spec 512 (size mod 1024)) as [H2|H2];
      [|destruct (Nat.even (size / 1024))]];
    repeat split; try lia;
    intros Hs; rewrite (Nat.mod_small size 1024) in * by lia; lia.
Qed.

Lemma format_kb_rounds_witness :
  exists kb, format_kb 511 = str_of_nat kb /\ kb = 0%nat.
Proof.
  destruct (format_kb_rounds 511) as (kb & E & _ & _ & H).
  exists kb. split; [exact E | apply H; lia].
Defined.

(** X21. The fragment of a section's url names an element that is there:
    when the url of a section record is the page path, "#" and an
    identifier, the section has a heading (its first [h2], else its first
    [h3]) and the identifier is the [id] attribute of an [a] inside that
    heading or of the heading itself. *)
Theorem section_fragment_target (page_url type_id type_label : str) (i : nat)
  (section : node) :
  exists r anchor,
    essay_section page_url type_id type_label (i, section) = Ok [r]
    /\ e_url r = page_url ++ anchor
    /\ (anchor = []
        \/ exists v heading x,
             anchor = HASH :: v
             /\ node_or (select_one (by_type "h2") section)
                        (select_one (by_type "h3") section) = Some heading
             /\ get x (lit "id") = Some v
             /\ (x = heading \/ In x (select (by_type_attr "a" "id") heading))).
Proof.
  unfold essay_section.
  set (h := node_or (select_one (by_type "h2") section)
                    (select_one (by_type "h3") section)).
  assert (A : exists anchor,
             section_anchor h = Ok anchor
             /\ (anchor = []
                 \/ exists v heading x,
                      anchor = HASH :: v /\ h = Some heading
                      /\ get x (lit "id") = Some v
                      /\ (x = heading
                          \/ In x (select (by_type_attr "a" "id") heading)))).
  { unfold section_anchor. destruct h as [heading|]; [|exists []; auto].
    destruct (select_one (by_type_attr "a" "id") heading) as [a|] eqn:Ea.
    - destruct (selected_attr_present "a" "id" heading Ea) as [v Hv].
      unfold getitem. rewrite Hv. exists (HASH :: v). split; [reflexivity|].
      right. exists v, heading, a. repeat split; auto.
      right. now apply select_one_in.
    - unfold getitem. destruct (get heading (lit "id")) as [[|c v]|] eqn:Eg;
        [exists []; auto | | exists []; auto].
      exists (HASH :: c :: v). split; [reflexivity|].
      right. exists (c :: v), heading, heading. auto. }
  destruct A as (anchor & -> & Ha).
  eexists. exists anchor. split; [reflexivity|]. split; [reflexivity | exact Ha].
Qed.

(** X22. The excerpt of a text longer than 300 characters is a clean cut:
    a non-empty prefix of the text of at most 300 characters that does
    not end in whitespace, followed by the ellipsis. *)
Theorem excerpt_of_long_text (el : option node) :
  (300 < List.length (text el))%nat ->
  exists kept rest,
    truncate (text el) = kept ++ [ELLIPSIS]
    /\ text el = kept ++ rest
    /\ kept <> []
    /\ (List.length kept <= 300)%nat
    /\ trailing_ws kept = false.
Proof.
  intros Hlen.
  destruct (text_clean el) as (Hrun & Hlead & _).
  assert (Hplain : only_plain_spaces (text el) = true).
  { destruct el as [el|]; [|reflexivity].
    apply plain_spaces_strip, plain_spaces_sub_ws_run. }
  set (s := text el) in *.
  unfold truncate, truncate_to. apply Nat.leb_gt in Hlen. rewrite Hlen.
  apply Nat.leb_gt in Hlen.
  pose proof (firstn_skipn 300 s) as Es.
  unfold rsplit1_head.
  destruct (before_last_space (firstn 300 s)) as [p|] eqn:E.
  - destruct (before_last_space_some _ E) as (tail & Ef & _).
    exists p, (SPACE :: tail ++ skipn 300 s).
    assert (Esp : s = p ++ SPACE :: tail ++ skipn 300 s).
    { rewrite <- Es at 1. rewrite Ef, <- app_assoc. reflexivity. }
    split; [reflexivity|]. split; [exact Esp|]. split; [|split].
    + intros ->. rewrite Esp in Hlead. discriminate Hlead.
    + apply before_last_space_shorter in E. rewrite length_firstn in E. lia.
    + unfold trailing_ws. destruct (rev p) as [|x r] eqn:Er; [reflexivity|].
      assert (Ep : p = rev r ++ [x]).
      { rewrite <- (rev_involutive p), Er. reflexivity. }
      cbn [leading_ws]. rewrite has_ws_run_spec in Hrun.
      assert (Hx : isspace x && isspace SPACE = false).
      { apply (Hrun (rev r) x SPACE (tail ++ skipn 300 s)).
        rewrite Esp at 1. rewrite Ep, <- app_assoc. reflexivity. }
      change (isspace SPACE) with true in Hx. now rewrite andb_true_r in Hx.
  - exists (firstn 300 s), (skipn 300 s).
    split; [reflexivity|]. split; [now rewrite Es|]. split; [|split].
    + intros E0. apply (f_equal (@List.length char)) in E0.
      rewrite length_firstn in E0. cbn [List.length] in E0. lia.
    + rewrite length_firstn. lia.
    + apply before_last_space_none_inv in E.
      assert (P : only_plain_spaces (firstn 300 s) = true).
      { rewrite <- Es in Hplain. unfold only_plain_spaces in *.
        rewrite forallb_app in Hplain. now apply andb_true_iff in Hplain. }
      unfold trailing_ws.
      assert (Q : forall t, only_plain_spaces t = true -> no_space t = true ->
                            forallb non_ws t = true).
      { induction t as [|c t IH]; [reflexivity|]. simpl.
        rewrite !andb_true_iff, negb_true_iff. intros [Hc Ht] [Hn Hs].
        split; [|auto]. apply orb_true_iff in Hc.
        destruct Hc as [Hc|Hc]; [exact Hc | congruence]. }
      specialize (Q _ P E).
      destruct (rev (firstn 300 s)) as [|x r] eqn:Er; [reflexivity|].
      assert (Ein : In x (firstn 300 s)).
      { apply in_rev. rewrite Er. now left. }
      rewrite forallb_forall in Q. specialize (Q x Ein).
      unfold non_ws in Q. cbn [leading_ws]. now apply negb_true_iff in Q.
Qed.

Lemma excerpt_of_long_text_witness :
  exists kept rest,
    truncate (text (Some long_paragraph)) = kept ++ [ELLIPSIS]
    /\ text (Some long_paragraph) = kept ++ rest
    /\ List.length kept = 299%nat.
Proof.
  destruct (excerpt_of_long_text (Some long_paragraph))
    as (kept & rest & E & Et & _).
  - vm_compute. lia.
  - exists kept, rest. split; [exact E|]. split; [exact Et|].
    assert (L : List.length (truncate (text (Some long_paragraph))) = 300%nat)
      by (vm_compute; reflexivity).
    rewrite E, length_app in L. cbn [List.length] in L. lia.
Defined.

(** ** The driver with the errors of its input and output *)

Lemma utf8_encode_strict_ok (s : str) (bytes : list byte) :
  utf8_encode_strict s = Ok bytes ->
  bytes = utf8_encode s /\ has_surrogate s = false.
Proof.
  revert bytes; induction s as [|c s IH]; simpl; intros bytes H.
  - injection H as <-. auto.
  - destruct (is_surrogate c); [discriminate|].
    destruct (utf8_encode_strict s) as [rest|e]; [|discriminate].
    injection H as <-. destruct (IH rest eq_refl) as [-> ->]. auto.
Qed.

Lemma utf8_encode_strict_raise (s : str) (e : exn) :
  utf8_encode_strict s = Raise e ->
  has_surrogate s = true
  /\ exists c, e = UnicodeEncodeError c /\ is_surrogate c = true /\ In c s.
Proof.
  induction s as [|c s IH]; simpl; intros H; [discriminate|].
  destruct (is_surrogate c) eqn:Hc.
  - injection H as <-. split; [reflexivity|]. exists c. auto.
  - destruct (utf8_encode_strict s) as [rest|e']; [discriminate|].
    injection H as <-. destruct (IH eq_refl) as [-> (x & E & Hx & Hin)].
    split; [reflexivity|]. exists x. auto.
Qed.

Lemma utf8_encode_strict_clean (s : str) :
  has_surrogate s = false -> utf8_encode_strict s = Ok (utf8_encode s).
Proof.
  intros H. destruct (utf8_encode_strict s) as [bytes|e] eqn:E.
  - apply utf8_encode_strict_ok in E. destruct E as [-> _]. reflexivity.
  - apply utf8_encode_strict_raise in E. destruct E as [E _]. congruence.
Qed.

Ltac run_io :=
  cbv beta iota zeta delta
    [IO.main IO.io_bind IO.io_ret IO.lift IO.load_soup IO.print IO.write_text
     IO.st_size IO.files IO.output_path IO.open_error IO.output_file IO.stdout
     IO.pages IO.first_unreadable input_files stages map fst snd
     report index aggregate stage bind unwrap stage_line].

Ltac io_leaf :=
  run_io; cbn [app]; rewrite ?app_nil_r, <- ?app_assoc;
  first
    [ solve [repeat split; reflexivity]
    | match goal with
      | |- context [utf8_encode_strict ?X] =>
          let E := fresh "E" in
          let bytes := fresh "bytes" in
          destruct (utf8_encode_strict X) as [bytes|?] eqn:E;
          [ apply utf8_encode_strict_ok in E; destruct E as [-> _] | ];
          run_io; cbn [app]; rewrite ?app_nil_r, <- ?app_assoc;
          solve [repeat split; reflexivity]
      end ].

(** What a run does, case by case: it stops at the first page file that
    cannot be read, then at an output file that cannot be opened, then at
    a text that cannot be encoded, which leaves the output file empty;
    otherwise it writes the index and prints its report.  The files of
    the site are never changed. *)
Lemma io_main_outcome (lower : str -> str) (d : IO.disk) :
  IO.files (snd (IO.main lower d)) = IO.files d
  /\ IO.output_path (snd (IO.main lower d)) = IO.output_path d
  /\ match IO.first_unreadable d input_files with
     | Some e =>
         fst (IO.main lower d) = Raise e
         /\ IO.output_file (snd (IO.main lower d)) = IO.output_file d
     | None =>
         match IO.open_error d with
         | Some e =>
             fst (IO.main lower d) = Raise e
             /\ IO.output_file (snd (IO.main lower d)) = IO.output_file d
         | None =>
             match utf8_encode_strict (dumps (index lower (IO.pages d))) with
             | Raise e =>
                 fst (IO.main lower d) = Raise e
                 /\ IO.output_file (snd (IO.main lower d)) = Some []
             | Ok bytes =>
                 IO.main lower d =
                   (Ok tt,
                    {| IO.files := IO.files d;
                       IO.output_path := IO.output_path d;
                       IO.open_error := None;
                       IO.output_file := Some bytes;
                       IO.stdout :=
                         IO.stdout d
                         ++ report lower (IO.pages d) (IO.output_path d) |})
             end
         end
     end.
Proof.
  destruct d as [fs path oerr ofile out].
  run_io.
  destruct oerr as [oe|];
    (destruct (fs (lit "qa.html")) as [[e1|qa]|];
     [ io_leaf | | ]);
    (destruct (fs (lit "argumentit.html")) as [[e2|arg]|];
     [ io_leaf | | ]);
    (destruct (fs (lit "kielen-valta.html")) as [[e3|kieli]|];
     [ io_leaf | | ]);
    (destruct (fs (lit "kannustinketju.html")) as [[e4|kannustin]|];
     [ io_leaf
     | destruct (parse_essay_total kannustin (lit "kannustinketju")
                   (lit "kannustin") (lit "Kannustinketju")) as [sections ->]
     | ]);
    (destruct (fs (lit "sanakirja.html")) as [[e5|termi]|];
     [ io_leaf | | ]);
    io_leaf.
Qed.

(** C8, as the driver has it.  When the page of a stage does not exist,
    [load_soup] raises nothing for it, and the run completes provided
    nothing else makes it raise: every other page that exists can be
    read, the output file can be opened, and the text to write holds no
    lone surrogate.  The run then prints the skip notice of the stage
    among its lines, writes the output file, and no record of the written
    array carries the type tag of the stage. *)
Theorem missing_page_skipped (lower : str -> str) (d : IO.disk)
  (filename tag : string) :
  In (filename, tag) stages ->
  IO.files d (lit filename) = None ->
  IO.first_unreadable d input_files = None ->
  IO.open_error d = None ->
  has_surrogate (dumps (index lower (IO.pages d))) = false ->
  exists entries printed,
    IO.main lower d =
      (Ok tt,
       {| IO.files := IO.files d;
          IO.output_path := IO.output_path d;
          IO.open_error := None;
          IO.output_file := Some (utf8_encode (dumps entries));
          IO.stdout := IO.stdout d ++ printed |})
    /\ In (skip_notice (lit filename)) printed
    /\ aggregate lower (IO.pages d) = Ok entries
    /\ Forall (fun e => e_type e <> lit tag) entries.
Proof.
  intros Hstage Hnone Hread Hopen Hclean.
  assert (Hpage : IO.pages d (lit filename) = None)
    by (unfold IO.pages; now rewrite Hnone).
  destruct (io_main_outcome lower d) as (_ & _ & Hmain).
  rewrite Hread, Hopen, (utf8_encode_strict_clean _ Hclean) in Hmain.
  exists (index lower (IO.pages d)),
         (report lower (IO.pages d) (IO.output_path d)).
  split; [exact Hmain|]. split; [|split].
  - unfold report, stage_line. simpl in Hstage.
    repeat (destruct Hstage as [Hstage|Hstage];
            [injection Hstage as <- <-; rewrite Hpage; simpl; tauto|]).
    destruct Hstage.
  - exact (proj1 (main_run lower (world_of (IO.pages d)))).
  - apply Forall_forall. intros e He Htag.
    destruct (index_types lower (IO.pages d) e He) as (f & t & Hin & Ht & Hsome).
    rewrite Ht in Htag. simpl in Hstage, Hin.
    repeat (destruct Hstage as [Hstage|Hstage];
            [injection Hstage as <- <-|]); try destruct Hstage;
      repeat (destruct Hin as [Hin|Hin]; [injection Hin as <- <-|]);
      try destruct Hin; try discriminate Htag; now apply Hsome.
Qed.

Lemma missing_page_skipped_witness :
  exists entries printed,
    IO.main ascii_lower disk_sample =
      (Ok tt,
       {| IO.files := IO.files disk_sample;
          IO.output_path := lit "search-index.json";
          IO.open_error := None;
          IO.output_file := Some (utf8_encode (dumps entries));
          IO.stdout := [] ++ printed |})
    /\ In (skip_notice (lit "argumentit.html")) printed
    /\ aggregate ascii_lower (IO.pages disk_sample) = Ok entries
    /\ Forall (fun e => e_type e <> lit "arg") entries.
Proof.
  apply (missing_page_skipped ascii_lower disk_sample
           (filename := "argumentit.html") (tag := "arg")).
  - simpl; tauto.
  - reflexivity.
  - reflexivity.
  - reflexivity.
  - vm_compute. reflexivity.
Defined.

(** C8 promises that a run with a missing page raises nothing.  On the
    disk whose only file is a Q&A page with the character reference
    [&#xD800;] in an answer, the arguments page is missing and the run
    raises [UnicodeEncodeError] when it writes, leaving the output file
    empty; on the disk whose glossary is not UTF-8 it raises
    [UnicodeDecodeError] when it reads that file. *)
Lemma missing_page_run_raises_counterexample :
  IO.files disk_surrogate (lit "argumentit.html") = None
  /\ IO.files disk_latin1 (lit "argumentit.html") = None
  /\ forall lower,
       fst (IO.main lower disk_surrogate) = Raise (UnicodeEncodeError 55296)
       /\ IO.output_file (snd (IO.main lower disk_surrogate)) = Some []
       /\ fst (IO.main lower disk_latin1)
          = Raise (UnicodeDecodeError (lit "sanakirja.html"))
       /\ IO.output_file (snd (IO.main lower disk_latin1)) = None.
Proof.
  split; [reflexivity|]. split; [reflexivity|].
  intros lower. repeat split; vm_compute; reflexivity.
Qed.

(** C9, as the serializer has it.  When every page that exists can be read
    and the output file can be opened, a run whose serialized text holds
    no lone surrogate replaces whatever the output file held by the UTF-8
    encoding of one JSON array of the aggregated records; a run whose
    text holds one raises [UnicodeEncodeError] and leaves the file empty.
    An empty array is written as "[]"; otherwise the objects stand between
    brackets, separated by a comma and a line break, each indented by one
    space, each with its seven members in ascending key order on lines
    indented by two spaces (one space per nesting level); characters from
    U+0080 on are written as they are, not escaped. *)
Theorem serializer_output (lower : str -> str) (d : IO.disk) :
  (IO.first_unreadable d input_files = None ->
   IO.open_error d = None ->
   (has_surrogate (dumps (index lower (IO.pages d))) = false ->
    fst (IO.main lower d) = Ok tt
    /\ IO.output_file (snd (IO.main lower d))
       = Some (utf8_encode (dumps (index lower (IO.pages d)))))
   /\ (has_surrogate (dumps (index lower (IO.pages d))) = true ->
       exists c,
         is_surrogate c = true
         /\ In c (dumps (index lower (IO.pages d)))
         /\ fst (IO.main lower d) = Raise (UnicodeEncodeError c)
         /\ IO.output_file (snd (IO.main lower d)) = Some []))
  /\ aggregate lower (IO.pages d) = Ok (index lower (IO.pages d))
  /\ dumps [] = lit "[]"
  /\ (forall e entries,
         dumps (e :: entries) =
           lit "[" ++ [NEWLINE; SPACE]
           ++ join (lit "," ++ [NEWLINE; SPACE])
                   (map (fun r => encode_dict 1 (items r)) (e :: entries))
           ++ [NEWLINE] ++ lit "]")
  /\ (forall e,
         encode_dict 1 (items e) =
           lit "{" ++ [NEWLINE; SPACE; SPACE]
           ++ join (lit "," ++ [NEWLINE; SPACE; SPACE])
                   [ member "content" (e_content e);
                     member "excerpt" (e_excerpt e);
                     member "id" (e_id e);
                     member "title" (e_title e);
                     member "type" (e_type e);
                     member "type_label" (e_type_label e);
                     member "url" (e_url e) ]
           ++ [NEWLINE; SPACE] ++ lit "}")
  /\ (forall e,
         keys_ascending (sorted_items (items e)) = true
         /\ Permutation (items e) (sorted_items (items e)))
  /\ (forall level, newline_indent level = NEWLINE :: repeat SPACE level)
  /\ (forall c, escape_char (128 + c) = [128 + c])
  /\ (forall c, c < 128 -> utf8_char c = [byte_of_N c])
  /\ utf8_encode [228; ELLIPSIS; EM_DASH] = [xc3; xa4; xe2; x80; xa6; xe2; x80; x94]
  /\ utf8_encode_strict [228; ELLIPSIS; EM_DASH]
     = Ok [xc3; xa4; xe2; x80; xa6; xe2; x80; x94].
Proof.
  split.
  { intros Hread Hopen.
    destruct (io_main_outcome lower d) as (_ & _ & Hmain).
    rewrite Hread, Hopen in Hmain. split.
    - intros Hclean. rewrite (utf8_encode_strict_clean _ Hclean) in Hmain.
      rewrite Hmain. split; reflexivity.
    - intros Hdirty.
      destruct (utf8_encode_strict (dumps (index lower (IO.pages d))))
        as [bytes|e] eqn:E.
      + apply utf8_encode_strict_ok in E. destruct E as [_ E]. congruence.
      + destruct (utf8_encode_strict_raise _ E) as (_ & c & -> & Hc & Hin).
        exists c. tauto. }
  split; [exact (proj1 (main_run lower (world_of (IO.pages d))))|].
  split; [reflexivity|]. split.
  { intros e entries. unfold dumps, encode_list. cbn [map].
    rewrite map_map. reflexivity. }
  split; [exact encode_entry_layout|]. split.
  { intros e. split; [apply sorted_items_ascending | apply sorted_items_perm]. }
  split.
  { intros level. unfold newline_indent, INDENT. now rewrite Nat.mul_1_l. }
  split.
  { intros c. apply escape_char_literal; unfold QUOTE, BACKSLASH; lia. }
  split; [|split; reflexivity].
  intros c Hc. unfold utf8_char.
  destruct (N.ltb_spec c 128); [reflexivity | lia].
Qed.

Lemma serializer_output_witness :
  (fst (IO.main ascii_lower disk_used) = Ok tt
   /\ IO.output_file (snd (IO.main ascii_lower disk_used))
      = Some (utf8_encode (dumps (index ascii_lower (IO.pages disk_used)))))
  /\ (exists c,
         is_surrogate c = true
         /\ In c (dumps (index ascii_lower (IO.pages disk_surrogate)))
         /\ fst (IO.main ascii_lower disk_surrogate) = Raise (UnicodeEncodeError c)
         /\ IO.output_file (snd (IO.main ascii_lower disk_surrogate)) = Some [])
  /\ utf8_char 65 = [x41].
Proof.
  split; [|split].
  - apply (serializer_output ascii_lower disk_used);
      [reflexivity | reflexivity | vm_compute; reflexivity].
  - apply (serializer_output ascii_lower disk_surrogate);
      [reflexivity | reflexivity | vm_compute; reflexivity].
  - apply (serializer_output ascii_lower disk_used). reflexivity.
Defined.

(** C9 speaks of multi-space indentation and of a write that always
    happens.  The array of the one record of the Q&A scenario is written
    on eleven lines, and the lines of the braces of the record start with
    a single space.  And on the disk whose Q&A page holds the character
    reference [&#xD800;], where every page can be read and the output
    file opened, the run raises [UnicodeEncodeError] and leaves an empty
    file, not a JSON array. *)
Lemma serializer_counterexample :
  indents (dumps (parse_qa qa_page)) = [0; 1; 2; 2; 2; 2; 2; 2; 2; 1; 0]%nat
  /\ multi_space_indented (dumps (parse_qa qa_page)) = false
  /\ forall lower,
       IO.first_unreadable disk_surrogate input_files = None
       /\ IO.open_error disk_surrogate = None
       /\ fst (IO.main lower disk_surrogate) = Raise (UnicodeEncodeError 55296)
       /\ IO.output_file (snd (IO.main lower disk_surrogate)) = Some [].
Proof.
  split; [vm_compute; reflexivity|]. split; [vm_compute; reflexivity|].
  intros lower. repeat split; vm_compute; reflexivity.
Qed.

(** X18. What a run does, for every disk.  It raises what reading the
    first unreadable page raises; failing that, what opening the output
    file raises; failing that, [UnicodeEncodeError] when the serialized
    text holds a lone surrogate; and completes otherwise.  It never
    touches the pages.  The output file is left as it was by a read or
    open error, is left empty by an encoding error, and holds the UTF-8
    text of the index otherwise.  A run that completes has printed eleven
    lines (a banner and a count or skip notice per stage, and the closing
    line with the number of records and the size), and has written the
    records of the five stages in the order Q&A, argumentit, kielen-valta,
    kannustinketju, sanakirja. *)
Theorem main_outcome (lower : str -> str) (d : IO.disk) :
  fst (IO.main lower d)
  = match IO.first_unreadable d input_files with
    | Some e => Raise e
    | None =>
        match IO.open_error d with
        | Some e => Raise e
        | None =>
            match utf8_encode_strict (dumps (index lower (IO.pages d))) with
            | Ok _ => Ok tt
            | Raise e => Raise e
            end
        end
    end
  /\ IO.files (snd (IO.main lower d)) = IO.files d
  /\ IO.output_path (snd (IO.main lower d)) = IO.output_path d
  /\ IO.output_file (snd (IO.main lower d))
     = match IO.first_unreadable d input_files with
       | Some _ => IO.output_file d
       | None =>
           match IO.open_error d with
           | Some _ => IO.output_file d
           | None =>
               match utf8_encode_strict (dumps (index lower (IO.pages d))) with
               | Ok bytes => Some bytes
               | Raise _ => Some []
               end
           end
       end
  /\ (fst (IO.main lower d) = Ok tt ->
      exists printed,
        let entries :=
          unwrap (stage (IO.pages d (lit "qa.html")) (fun soup => Ok (parse_qa soup)))
          ++ unwrap (stage (IO.pages d (lit "argumentit.html"))
                       (fun soup => Ok (parse_arg_cards soup (lit "argumentit")
                                          (lit "arg") (lit "Systeemivirhe"))))
          ++ unwrap (stage (IO.pages d (lit "kielen-valta.html"))
                       (fun soup => Ok (parse_arg_cards soup (lit "kielen-valta")
                                          (lit "kieli") (lit "Kielen valta"))))
          ++ unwrap (stage (IO.pages d (lit "kannustinketju.html"))
                       (fun soup => parse_essay soup (lit "kannustinketju")
                                      (lit "kannustin") (lit "Kannustinketju")))
          ++ unwrap (stage (IO.pages d (lit "sanakirja.html"))
                       (fun soup => Ok (parse_terms lower soup))) in
        IO.main lower d =
          (Ok tt,
           {| IO.files := IO.files d;
              IO.output_path := IO.output_path d;
              IO.open_error := None;
              IO.output_file := Some (utf8_encode (dumps entries));
              IO.stdout := IO.stdout d ++ printed |})
        /\ has_surrogate (dumps entries) = false
        /\ List.length printed = 11%nat
        /\ last printed [] =
             NEWLINE :: lit "Wrote " ++ str_of_nat (List.length entries)
               ++ lit " entries to " ++ IO.output_path d ++ lit " ("
               ++ format_kb (List.length (utf8_encode (dumps entries)))
               ++ lit " KB)").
Proof.
  destruct (io_main_outcome lower d) as (Hfiles & Hpath & Hmain).
  assert (Hstages := index_stages lower (IO.pages d)).
  destruct (IO.first_unreadable d input_files) as [e|].
  { destruct Hmain as [Hr Hf]. repeat (split; [assumption|]).
    rewrite Hr. discriminate. }
  destruct (IO.open_error d) as [e|].
  { destruct Hmain as [Hr Hf]. repeat (split; [assumption|]).
    rewrite Hr. discriminate. }
  destruct (utf8_encode_strict (dumps (index lower (IO.pages d))))
    as [bytes|e] eqn:E.
  - apply utf8_encode_strict_ok in E. destruct E as [-> Hclean].
    split; [now rewrite Hmain|]. split; [assumption|]. split; [assumption|].
    split; [now rewrite Hmain|].
    intros _. exists (report lower (IO.pages d) (IO.output_path d)). cbv zeta.
    rewrite <- Hstages.
    split; [exact Hmain|]. split; [exact Hclean|]. split; reflexivity.
  - destruct Hmain as [Hr Hf]. repeat (split; [assumption|]).
    rewrite Hr. discriminate.
Qed.

Lemma main_outcome_witness :
  fst (IO.main ascii_lower disk_sample) = Ok tt
  /\ fst (IO.main ascii_lower disk_latin1)
     = Raise (UnicodeDecodeError (lit "sanakirja.html"))
  /\ IO.output_file (snd (IO.main ascii_lower disk_surrogate)) = Some []
  /\ exists printed,
       IO.stdout (snd (IO.main ascii_lower disk_sample)) = [] ++ printed
       /\ List.length printed = 11%nat.
Proof.
  split; [|split; [|split]].
  - rewrite (proj1 (main_outcome ascii_lower disk_sample)). vm_compute. reflexivity.
  - rewrite (proj1 (main_outcome ascii_lower disk_latin1)). reflexivity.
  - rewrite (proj1 (proj2 (proj2 (proj2 (main_outcome ascii_lower disk_surrogate))))).
    vm_compute. reflexivity.
  - destruct (proj2 (proj2 (proj2 (proj2 (main_outcome ascii_lower disk_sample)))))
      as (printed & E & _ & Hlen & _).
    + vm_compute. reflexivity.
    + exists printed. rewrite E. split; [reflexivity | exact Hlen].
Defined.
